(** * URJANET microgrid control plane: semantic mapper, safety supervisor,
      rule evaluator, decision history and deduplication cache

    A shallow embedding of the pure core of [backend/app]:
    - [action_mapping.py]  ([ActionMapping]),
    - [safety.py]          ([Safety], [SafetyIeee]),
    - [rules.py]           ([Rules]),
    - [crud.list_rl_decisions] and [main.rl_history] ([History]),
    - the deduplication cache of [main.handle_ingested] ([Dedup]),
    - [main.rl_advisory_safe] ([Advisory]) and its write to the store of
      [flow.py] ([Flow]),
    - the cooldown of [emailer.py] ([Emailer]), the reconnect loop and the
      message callback of [mqtt.py] ([Mqtt], [MqttMessage]),
    - [rl_obs.py] ([RlObs]), [crud.acknowledge_alert] and
      [crud.latest_telemetry] ([Crud]), [main.get_smart_alerts]
      ([SmartAlerts]).

    Numbers.  Python floats are modelled by the rationals [Q]: every finite
    double is a rational and the comparisons [<], [>], [>=] on finite doubles
    are the comparisons of the rationals they denote.  The literals [0.20]
    and [0.90] are the doubles nearest to 1/5 and 9/10, and are written
    here as those doubles; every other literal of the modelled code is an
    integer or a half and is exact.

    NaN and the infinities are not rationals.  The supervisor only
    compares and stores its numbers, so it is written a second time over
    all doubles ([SafetyIeee], with the comparisons of [Ieee]); the two
    agree on finite values ([SafetyIeeeTheory.apply_safety_finite]).
    Products and sums in [map_action] are taken exactly: rounding is left
    out, and so is overflow.  A double product overflows to an infinity
    beyond about [1.8 * 10^308], and the sum of two opposite infinities is
    NaN; statements on the supervised result of a mapped vector are
    therefore made for vectors whose entries are at most [10^300] in
    magnitude ([MapperValues.bounded]), on which nothing overflows.

    Dictionaries are [gmap string _]; a dictionary whose insertion order
    matters (the deduplication cache) is the list of its keys in insertion
    order.  A Python exception is the [Raise] branch of [res]. *)

From Stdlib Require Import QArith Lqa ZArith Lia Ascii.
From stdpp Require Import base option list gmap strings pretty sorting.

Local Open Scope string_scope.
Local Open Scope list_scope.

(** ** Exceptions *)

Inductive exn : Type :=
| KeyError (k : string)
| IndexError
| ValueError
| TypeError
| AttributeError.

Inductive res (A : Type) : Type :=
| Ok (a : A)
| Raise (e : exn).
Arguments Ok {A} a.
Arguments Raise {A} e.

#[global] Instance res_ret : MRet res := fun _ a => Ok a.
#[global] Instance res_bind : MBind res := fun _ _ f m =>
  match m with
  | Ok a => f a
  | Raise e => Raise e
  end.

Definition raises {A} (m : res A) : Prop := exists e, m = Raise e.

(** ** Floats as rationals *)

Definition Qltb (x y : Q) : bool := negb (Qle_bool y x).
Definition Qgtb (x y : Q) : bool := Qltb y x.
Definition Qgeb (x y : Q) : bool := Qle_bool y x.

(** Python's two-argument [min] and [max] return the first argument unless
    the second is strictly smaller (larger). *)
Definition py_min (a b : Q) : Q := if Qltb b a then b else a.
Definition py_max (a b : Q) : Q := if Qgtb b a then b else a.

(** [d[k]] on a dictionary and [v[i]] on a list. *)
Definition getidx {A} (v : list A) (i : nat) : res A :=
  match v !! i with
  | Some x => Ok x
  | None => Raise IndexError
  end.

Definition getitem {V} (d : gmap string V) (k : string) : res V :=
  match d !! k with
  | Some v => Ok v
  | None => Raise (KeyError k)
  end.

(** A dictionary is true when it is not empty; [None] is false. *)
Definition truthy (d : option (gmap string Q)) : bool :=
  match d with
  | Some m => negb (size m =? 0)%nat
  | None => false
  end.

(** ** safety.py *)

Module Safety.

Definition BATTERY_MAX_CHARGE_TOTAL : Q := 800.
Definition BATTERY_MAX_DISCHARGE_TOTAL : Q := 800.
Definition GRID_MAX_IMPORT : Q := 5000.
Definition EV_MAX_CHARGE : Q := 450.

(** The double written [0.20] in the source. *)
Definition SOC_020 : Q := 3602879701896397 # 18014398509481984.
(** The double written [0.90] in the source. *)
Definition SOC_090 : Q := 8106479329266893 # 9007199254740992.

(** The pair [(safe, flags)] that [apply_safety] builds up. *)
Definition state : Type := gmap string Q * list string.

(** [if safe[k] `test`: safe[k] = v; flags.append(flag)] *)
Definition clamp (k : string) (test : Q -> bool) (v : Q) (flag : string)
    (st : state) : res state :=
  x ← getitem st.1 k;
  if test x then Ok (<[k := v]> st.1, st.2 ++ [flag]) else Ok st.

(** [if guard and safe[k] `test`: ...]: Python's [and] does not read
    [safe[k]] when [guard] is false. *)
Definition guarded_clamp (guard : bool) (k : string) (test : Q -> bool)
    (v : Q) (flag : string) (st : state) : res state :=
  if guard then clamp k test v flag st else Ok st.

Definition apply_safety (semantic : gmap string Q) (soc_fraction : Q)
    : res state :=
  let safe := semantic in
  let flags : list string := [] in
  (* SoC envelope logic *)
  st ← guarded_clamp (Qltb soc_fraction SOC_020) "battery_kw"
         (fun b => Qltb b 0) 0 "BLOCK_DISCHARGE_LOW_SOC" (safe, flags);
  st ← guarded_clamp (Qgtb soc_fraction SOC_090) "battery_kw"
         (fun b => Qgtb b 0) 0 "BLOCK_CHARGE_HIGH_SOC" st;
  (* Battery power clamp *)
  st ← clamp "battery_kw" (fun b => Qgtb b BATTERY_MAX_CHARGE_TOTAL)
         BATTERY_MAX_CHARGE_TOTAL "CLAMP_BATTERY_CHARGE" st;
  st ← clamp "battery_kw" (fun b => Qltb b (- BATTERY_MAX_DISCHARGE_TOTAL))
         (- BATTERY_MAX_DISCHARGE_TOTAL) "CLAMP_BATTERY_DISCHARGE" st;
  (* Grid power (no export for now) *)
  st ← clamp "grid_kw" (fun g => Qltb g 0) 0 "NO_EXPORT_SUPPORTED" st;
  st ← clamp "grid_kw" (fun g => Qgtb g GRID_MAX_IMPORT)
         GRID_MAX_IMPORT "CLAMP_GRID_IMPORT" st;
  (* EV *)
  st ← clamp "ev_kw" (fun e => Qltb e 0) 0 "NEG_EV_POWER" st;
  st ← clamp "ev_kw" (fun e => Qgtb e EV_MAX_CHARGE)
         EV_MAX_CHARGE "CLAMP_EV_CHARGE" st;
  (* Curtailment *)
  st ← clamp "curtailment" (fun c => Qltb c 0) 0 "CURTAILMENT_NEG" st;
  st ← clamp "curtailment" (fun c => Qgtb c 1) 1 "CURTAILMENT_GT1" st;
  Ok st.

(** A semantic action carries the four supervised fields. *)
Definition has_fields (semantic : gmap string Q) : Prop :=
  is_Some (semantic !! "battery_kw") /\ is_Some (semantic !! "grid_kw") /\
  is_Some (semantic !! "ev_kw") /\ is_Some (semantic !! "curtailment").

(** The safety envelope of a supervised action (section 4.6 of the
    specification: the ranges the clamps enforce). *)
Definition in_envelope (safe : gmap string Q) : Prop :=
  (exists b, safe !! "battery_kw" = Some b /\ (-800 <= b <= 800)%Q) /\
  (exists g, safe !! "grid_kw" = Some g /\ (0 <= g <= 5000)%Q) /\
  (exists e, safe !! "ev_kw" = Some e /\ (0 <= e <= 450)%Q) /\
  (exists c, safe !! "curtailment" = Some c /\ (0 <= c <= 1)%Q).

(** The value each key ends with, as a function of the value it starts
    with: the ten tests of [apply_safety], key by key.  These closed forms
    are what [SafetyTheory.apply_safety_spec] proves [apply_safety] to
    compute; they define nothing of the program. *)
Definition battery_out (soc b : Q) : Q :=
  let b := if Qltb soc SOC_020 && Qltb b 0 then 0%Q else b in
  let b := if Qgtb soc SOC_090 && Qgtb b 0 then 0%Q else b in
  let b := if Qgtb b BATTERY_MAX_CHARGE_TOTAL then BATTERY_MAX_CHARGE_TOTAL else b in
  if Qltb b (- BATTERY_MAX_DISCHARGE_TOTAL) then (- BATTERY_MAX_DISCHARGE_TOTAL)%Q else b.

(** The flags the four battery tests append, in order. *)
Definition battery_flags (soc b : Q) : list string :=
  let f1 := if Qltb soc SOC_020 && Qltb b 0 then ["BLOCK_DISCHARGE_LOW_SOC"] else [] in
  let b := if Qltb soc SOC_020 && Qltb b 0 then 0%Q else b in
  let f2 := if Qgtb soc SOC_090 && Qgtb b 0 then ["BLOCK_CHARGE_HIGH_SOC"] else [] in
  let b := if Qgtb soc SOC_090 && Qgtb b 0 then 0%Q else b in
  let f3 := if Qgtb b BATTERY_MAX_CHARGE_TOTAL then ["CLAMP_BATTERY_CHARGE"] else [] in
  let b := if Qgtb b BATTERY_MAX_CHARGE_TOTAL then BATTERY_MAX_CHARGE_TOTAL else b in
  let f4 := if Qltb b (- BATTERY_MAX_DISCHARGE_TOTAL) then ["CLAMP_BATTERY_DISCHARGE"] else [] in
  (((f1 ++ f2) ++ f3) ++ f4).

(** A key with a lower and an upper clamp. *)
Definition range_out (lo hi x : Q) : Q :=
  let x := if Qltb x lo then lo else x in
  if Qgtb x hi then hi else x.

(** The flags its two tests append, in order. *)
Definition range_flags (lo hi : Q) (flo fhi : string) (x : Q) : list string :=
  let f1 := if Qltb x lo then [flo] else [] in
  let x := if Qltb x lo then lo else x in
  let f2 := if Qgtb x hi then [fhi] else [] in
  f1 ++ f2.

End Safety.

(** ** safety.py on IEEE doubles *)

(** The rationals leave out the values of a double that are not finite.
    [apply_safety] only compares and stores its numbers, so it can be
    written over every double, NaN and the infinities included. *)

Module Ieee.

(** A double: a finite value, an infinity, or NaN. *)
Inductive double : Type :=
| Finite (q : Q)
| PosInf
| NegInf
| NaN.

(** [x < y] on doubles: false as soon as one side is NaN. *)
Definition ltb (x y : double) : bool :=
  match x, y with
  | Finite a, Finite b => Qltb a b
  | Finite _, PosInf => true
  | NegInf, Finite _ => true
  | NegInf, PosInf => true
  | _, _ => false
  end.

(** [x > y] *)
Definition gtb (x y : double) : bool := ltb y x.

Definition is_nan (x : double) : bool :=
  match x with
  | NaN => true
  | _ => false
  end.

End Ieee.

Module SafetyIeee.
Import Ieee.

Definition BATTERY_MAX_CHARGE_TOTAL : double :=
  Finite Safety.BATTERY_MAX_CHARGE_TOTAL.
(** [-BATTERY_MAX_DISCHARGE_TOTAL] *)
Definition NEG_BATTERY_MAX_DISCHARGE_TOTAL : double :=
  Finite (- Safety.BATTERY_MAX_DISCHARGE_TOTAL).
Definition GRID_MAX_IMPORT : double := Finite Safety.GRID_MAX_IMPORT.
Definition EV_MAX_CHARGE : double := Finite Safety.EV_MAX_CHARGE.
Definition SOC_020 : double := Finite Safety.SOC_020.
Definition SOC_090 : double := Finite Safety.SOC_090.

Definition state : Type := gmap string double * list string.

(** [if safe[k] `test`: safe[k] = v; flags.append(flag)] *)
Definition clamp (k : string) (test : double -> bool) (v : double)
    (flag : string) (st : state) : res state :=
  x ← getitem st.1 k;
  if test x then Ok (<[k := v]> st.1, st.2 ++ [flag]) else Ok st.

Definition guarded_clamp (guard : bool) (k : string) (test : double -> bool)
    (v : double) (flag : string) (st : state) : res state :=
  if guard then clamp k test v flag st else Ok st.

(** [apply_safety], statement by statement as [Safety.apply_safety], with
    the comparisons of doubles. *)
Definition apply_safety (semantic : gmap string double)
    (soc_fraction : double) : res state :=
  let safe := semantic in
  let flags : list string := [] in
  (* SoC envelope logic *)
  st ← guarded_clamp (ltb soc_fraction SOC_020) "battery_kw"
         (fun b => ltb b (Finite 0)) (Finite 0)
         "BLOCK_DISCHARGE_LOW_SOC" (safe, flags);
  st ← guarded_clamp (gtb soc_fraction SOC_090) "battery_kw"
         (fun b => gtb b (Finite 0)) (Finite 0)
         "BLOCK_CHARGE_HIGH_SOC" st;
  (* Battery power clamp *)
  st ← clamp "battery_kw" (fun b => gtb b BATTERY_MAX_CHARGE_TOTAL)
         BATTERY_MAX_CHARGE_TOTAL "CLAMP_BATTERY_CHARGE" st;
  st ← clamp "battery_kw" (fun b => ltb b NEG_BATTERY_MAX_DISCHARGE_TOTAL)
         NEG_BATTERY_MAX_DISCHARGE_TOTAL "CLAMP_BATTERY_DISCHARGE" st;
  (* Grid power (no export for now) *)
  st ← clamp "grid_kw" (fun g => ltb g (Finite 0)) (Finite 0)
         "NO_EXPORT_SUPPORTED" st;
  st ← clamp "grid_kw" (fun g => gtb g GRID_MAX_IMPORT)
         GRID_MAX_IMPORT "CLAMP_GRID_IMPORT" st;
  (* EV *)
  st ← clamp "ev_kw" (fun e => ltb e (Finite 0)) (Finite 0)
         "NEG_EV_POWER" st;
  st ← clamp "ev_kw" (fun e => gtb e EV_MAX_CHARGE)
         EV_MAX_CHARGE "CLAMP_EV_CHARGE" st;
  (* Curtailment *)
  st ← clamp "curtailment" (fun c => ltb c (Finite 0)) (Finite 0)
         "CURTAILMENT_NEG" st;
  st ← clamp "curtailment" (fun c => gtb c (Finite 1)) (Finite 1)
         "CURTAILMENT_GT1" st;
  Ok st.

(** The action carries the four supervised fields. *)
Definition has_fields (semantic : gmap string double) : Prop :=
  is_Some (semantic !! "battery_kw") /\ is_Some (semantic !! "grid_kw") /\
  is_Some (semantic !! "ev_kw") /\ is_Some (semantic !! "curtailment").

(** The action carries the four supervised fields and none of them is
    NaN. *)
Definition has_numbers (semantic : gmap string double) : Prop :=
  (exists b, semantic !! "battery_kw" = Some b /\ is_nan b = false) /\
  (exists g, semantic !! "grid_kw" = Some g /\ is_nan g = false) /\
  (exists e, semantic !! "ev_kw" = Some e /\ is_nan e = false) /\
  (exists c, semantic !! "curtailment" = Some c /\ is_nan c = false).

(** The safety envelope: the four fields are finite and in range. *)
Definition in_envelope (safe : gmap string double) : Prop :=
  (exists b, safe !! "battery_kw" = Some (Finite b) /\ (-800 <= b <= 800)%Q) /\
  (exists g, safe !! "grid_kw" = Some (Finite g) /\ (0 <= g <= 5000)%Q) /\
  (exists e, safe !! "ev_kw" = Some (Finite e) /\ (0 <= e <= 450)%Q) /\
  (exists c, safe !! "curtailment" = Some (Finite c) /\ (0 <= c <= 1)%Q).

(** The value each key ends with, as in [Safety.battery_out] and
    [Safety.range_out]. *)
Definition battery_out (soc b : double) : double :=
  let b := if ltb soc SOC_020 && ltb b (Finite 0) then Finite 0 else b in
  let b := if gtb soc SOC_090 && gtb b (Finite 0) then Finite 0 else b in
  let b := if gtb b BATTERY_MAX_CHARGE_TOTAL
           then BATTERY_MAX_CHARGE_TOTAL else b in
  if ltb b NEG_BATTERY_MAX_DISCHARGE_TOTAL
  then NEG_BATTERY_MAX_DISCHARGE_TOTAL else b.

Definition battery_flags (soc b : double) : list string :=
  let f1 := if ltb soc SOC_020 && ltb b (Finite 0)
            then ["BLOCK_DISCHARGE_LOW_SOC"] else [] in
  let b := if ltb soc SOC_020 && ltb b (Finite 0) then Finite 0 else b in
  let f2 := if gtb soc SOC_090 && gtb b (Finite 0)
            then ["BLOCK_CHARGE_HIGH_SOC"] else [] in
  let b := if gtb soc SOC_090 && gtb b (Finite 0) then Finite 0 else b in
  let f3 := if gtb b BATTERY_MAX_CHARGE_TOTAL
            then ["CLAMP_BATTERY_CHARGE"] else [] in
  let b := if gtb b BATTERY_MAX_CHARGE_TOTAL
           then BATTERY_MAX_CHARGE_TOTAL else b in
  let f4 := if ltb b NEG_BATTERY_MAX_DISCHARGE_TOTAL
            then ["CLAMP_BATTERY_DISCHARGE"] else [] in
  (((f1 ++ f2) ++ f3) ++ f4).

Definition range_out (lo hi x : double) : double :=
  let x := if ltb x lo then lo else x in
  if gtb x hi then hi else x.

Definition range_flags (lo hi : double) (flo fhi : string) (x : double)
    : list string :=
  let f1 := if ltb x lo then [flo] else [] in
  let x := if ltb x lo then lo else x in
  let f2 := if gtb x hi then [fhi] else [] in
  f1 ++ f2.

End SafetyIeee.

(** ** action_mapping.py *)

Module ActionMapping.

Definition BAT1_MAX_CHARGE : Q := 600.
Definition BAT1_MAX_DISCHARGE : Q := 600.
Definition BAT2_MAX_CHARGE : Q := 200.
Definition BAT2_MAX_DISCHARGE : Q := 200.
Definition GRID_MAX_IMPORT : Q := 5000.
Definition GRID_MAX_EXPORT : Q := 3000.
Definition EV_MAX_AGG_CHARGE : Q := 450.

(** The products and the sum of the mapper are those of the rationals:
    they are the doubles of the source up to rounding as long as nothing
    overflows, which holds on the vectors of [MapperValues.bounded]. *)
Definition _battery_power_component (raw max_charge max_discharge : Q) : Q :=
  if Qgeb raw 0 then raw * max_charge else raw * max_discharge.

(** [while len(v) < 5: v.append(0.0)], by fuel; [pad_loop_exits] shows
    that five rounds always reach the loop's exit. *)
Fixpoint pad_loop (fuel : nat) (v : list Q) : list Q :=
  match fuel with
  | O => v
  | S fuel' => if (length v <? 5)%nat then pad_loop fuel' (v ++ [0%Q]) else v
  end.

(** What a call leaves behind: the content of the caller's list object
    after the call ([v = raw_vector] binds the same object, so the appends
    of the padding loop land in it), and the value returned. *)
Record call := Call {
  arg_after : list Q;
  returned : res (gmap string Q)
}.

Definition map_action (raw_vector : list Q) : call :=
  match raw_vector with
  | [] =>
      Call raw_vector
        (Ok {[ "battery_kw" := 0%Q; "battery1_kw" := 0%Q;
               "battery2_kw" := 0%Q; "grid_kw" := 0%Q; "ev_kw" := 0%Q;
               "curtailment" := 0%Q ]})
  | _ =>
      let v := pad_loop 5 raw_vector in
      Call v
        (v0 ← getidx v 0;
         let b1 := _battery_power_component v0 BAT1_MAX_CHARGE BAT1_MAX_DISCHARGE in
         v1 ← getidx v 1;
         let b2 := _battery_power_component v1 BAT2_MAX_CHARGE BAT2_MAX_DISCHARGE in
         grid_norm ← getidx v 2;
         let grid_kw :=
           if Qgeb grid_norm 0 then grid_norm * GRID_MAX_IMPORT
           else - grid_norm * GRID_MAX_EXPORT * -1 in
         v3 ← getidx v 3;
         let ev_norm := py_max 0 (py_min 1 v3) in
         let ev_kw := ev_norm * EV_MAX_AGG_CHARGE in
         v4 ← getidx v 4;
         let curtailment := (v4 + 1) / 2 in
         let total_battery := b1 + b2 in
         Ok {[ "battery_kw" := total_battery; "battery1_kw" := b1;
               "battery2_kw" := b2; "grid_kw" := grid_kw; "ev_kw" := ev_kw;
               "curtailment" := py_max 0 (py_min 1 curtailment) ]})%Q
  end.

(** The raw vector right-padded with zeros to length 5. *)
Definition right_pad (v : list Q) : list Q :=
  v ++ replicate (5 - length v) 0%Q.

(** The keys of a mapped action. *)
Definition mapped (m : gmap string Q) : Prop :=
  Safety.has_fields m /\
  is_Some (m !! "battery1_kw") /\ is_Some (m !! "battery2_kw").

End ActionMapping.

(** ** rules.py *)

Module Rules.

(** A payload value, by what [float()] does with it: a number (an [int],
    a [float], a string that reads as one), a string that does not read as
    a number, or a value that is neither a number nor a string ([None], a
    list, a dictionary). *)
Inductive pyval : Type :=
| Num (q : Q)
| NotNumeric
| NotConvertible.

(** [float(v)]: [ValueError] on a string that is not a number, [TypeError]
    on a value of another type. *)
Definition float (v : pyval) : res Q :=
  match v with
  | Num q => Ok q
  | NotNumeric => Raise ValueError
  | NotConvertible => Raise TypeError
  end.

Record Rule := mkRule {
  field : string;
  op : string;  (* 'lt' or 'gt' *)
  threshold : Q;
  severity : string;
  type : string;
  message : string
}.

Definition check (self : Rule) (payload : gmap string pyval)
    : res (option (Q * Q)) :=
  match payload !! field self with
  | None => Ok None
  | Some raw =>
      value ← float raw;
      if bool_decide (op self = "lt") && Qltb value (threshold self)
      then Ok (Some (value, threshold self))
      else if bool_decide (op self = "gt") && Qgtb value (threshold self)
      then Ok (Some (value, threshold self))
      else Ok None
  end.

Definition RULES : list Rule :=
  [ mkRule "soc" "lt" 20 "WARN" "SOC_LOW" "State of Charge below 20%";
    mkRule "voltage" "gt" 250 "HIGH" "VOLTAGE_HIGH" "Voltage exceeds 250V";
    mkRule "temperature" "gt" 60 "HIGH" "TEMP_HIGH" "Temperature above 60C" ].

(** The dictionary that [evaluate] yields. *)
Record Alert := mkAlert {
  a_type_ : string;
  a_severity : string;
  a_message : string;
  a_value : Q;
  a_threshold : Q
}.

(** A generator run: what it yielded, in order, and the exception that
    ended it, if one did. *)
Definition run (A : Type) : Type := list A * option exn.

(** [for rule in RULES: res = rule.check(payload); if res: yield {...}].
    A result of [check] is [None] or a pair, and a pair is true. *)
Fixpoint evaluate_loop (rules : list Rule) (payload : gmap string pyval)
    : run Alert :=
  match rules with
  | [] => ([], None)
  | rule :: rest =>
      match check rule payload with
      | Raise e => ([], Some e)
      | Ok None => evaluate_loop rest payload
      | Ok (Some (value, threshold)) =>
          let '(later, ended) := evaluate_loop rest payload in
          (mkAlert (type rule) (severity rule) (message rule) value threshold
             :: later, ended)
      end
  end.

Definition evaluate (payload : gmap string pyval) : run Alert :=
  evaluate_loop RULES payload.

(** The comparison a rule makes on an observed value. *)
Definition holds (r : Rule) (x : Q) : Prop :=
  (op r = "lt" /\ (x < threshold r)%Q) \/ (op r = "gt" /\ (threshold r < x)%Q).

(** The alert of rule [r] at observed value [x]. *)
Definition alert_of (r : Rule) (x : Q) : Alert :=
  mkAlert (type r) (severity r) (message r) x (threshold r).

(** The test of [check], as one boolean. *)
Definition holdsb (r : Rule) (x : Q) : bool :=
  (bool_decide (op r = "lt") && Qltb x (threshold r)) ||
  (bool_decide (op r = "gt") && Qgtb x (threshold r)).

(** The alert a rule contributes on a payload, if any. *)
Definition fires (payload : gmap string pyval) (r : Rule) : option Alert :=
  match payload !! field r with
  | Some (Num x) => if holdsb r x then Some (alert_of r x) else None
  | _ => None
  end.

(** The rule's field is absent from the payload or holds a number. *)
Definition readable (payload : gmap string pyval) (r : Rule) : Prop :=
  payload !! field r = None \/ exists x, payload !! field r = Some (Num x).

End Rules.

(** ** crud.list_rl_decisions and main.rl_history *)

Module History.

Record RLDecisionLog := mkRow {
  id : Z;
  device_id : string;
  raw_vector : option (list Q);
  semantic_raw : option (gmap string Q);
  semantic_safe : option (gmap string Q);
  safety_flags : option (list string)
}.

(** The query: the rows of the table, each SQLAlchemy call one step.
    [filter] keeps the rows of a condition, [order_by(id.desc())] sorts
    by decreasing id, [limit(n)] keeps the first [n] rows. *)
Definition id_desc (r1 r2 : RLDecisionLog) : Prop := (id r2 <= id r1)%Z.

#[global] Instance id_desc_dec : RelDecision id_desc.
Proof. intros r1 r2. unfold id_desc. apply _. Defined.

Definition order_by_id_desc (q : list RLDecisionLog) : list RLDecisionLog :=
  merge_sort id_desc q.

(** [limit] is a row count, a natural number. *)
Definition list_rl_decisions (db : list RLDecisionLog) (device : string)
    (limit : nat) (before_id : option Z) : list RLDecisionLog * bool :=
  let q := filter (fun r => device_id r = device) db in
  let q :=
    match before_id with
    | Some b => filter (fun r => (id r < b)%Z) q
    | None => q
    end in
  let q := take (limit + 1) (order_by_id_desc q) in
  let rows := q in
  let has_more := (limit <? length rows)%nat in
  let rows := if has_more then take limit rows else rows in
  (rows, has_more).

(** The rows a query is about: those of the device, before the cursor. *)
Definition in_scope (device : string) (before_id : option Z)
    (r : RLDecisionLog) : bool :=
  bool_decide (device_id r = device) &&
  match before_id with
  | Some b => (id r <? b)%Z
  | None => true
  end.

Definition matching (db : list RLDecisionLog) (device : string)
    (before_id : option Z) : list RLDecisionLog :=
  filter (fun r => in_scope device before_id r = true) db.

Record RLDecisionHistoryItem := mkItem {
  item_id : Z;
  item_safety_flags : option (list string);
  item_semantic_safe : option (gmap string Q);
  item_semantic_raw : option (gmap string Q);
  item_semantic_delta : option (gmap string Q)
}.

Record RLDecisionHistoryOut := mkOut {
  out_device_id : string;
  decisions : list RLDecisionHistoryItem;
  next_before_id : option Z;
  has_more : bool
}.

(** [raw - safe] on the keys of both. *)
Definition semantic_delta_of (r : RLDecisionLog) : option (gmap string Q) :=
  if truthy (semantic_raw r) && truthy (semantic_safe r) then
    match semantic_raw r, semantic_safe r with
    | Some raw, Some safe =>
        Some (intersection_with (fun raw_v safe_v => Some (raw_v - safe_v)%Q)
                raw safe)
    | _, _ => None
    end
  else None.

(** [if min_id is None or r.id < min_id: min_id = r.id], over the rows. *)
Definition min_id_step (min_id : option Z) (r : RLDecisionLog) : option Z :=
  match min_id with
  | None => Some (id r)
  | Some m => if (id r <? m)%Z then Some (id r) else Some m
  end.

Definition rl_history (db : list RLDecisionLog) (device : string)
    (limit : nat) (before_id : option Z) : RLDecisionHistoryOut :=
  let '(rows, has_more) := list_rl_decisions db device limit before_id in
  let min_id := foldl min_id_step None rows in
  let items :=
    (fun r => mkItem (id r) (safety_flags r) (semantic_safe r)
                (semantic_raw r) (semantic_delta_of r)) <$> rows in
  let next_before :=
    if has_more then min_id else None in
  mkOut device items next_before has_more.

(** Ids in decreasing order. *)
Definition ids_descending (rows : list RLDecisionLog) : Prop :=
  StronglySorted id_desc rows.

(** The sorted rows in scope, of which a page is a prefix. *)
Definition scoped (db : list RLDecisionLog) (device : string)
    (before_id : option Z) : list RLDecisionLog :=
  order_by_id_desc (matching db device before_id).

End History.

(** ** main.py: the deduplication cache of handle_ingested *)

Module Dedup.

Abbreviation key := (string * string)%type.

(** [_dedup_cache]: the keys of the dictionary in insertion order. *)
Abbreviation cache := (list (string * string)).

Definition _DEDUP_MAX : Z := 5000.

Definition _dedup_key (device_id ts_iso : string) : key := (device_id, ts_iso).

Definition key_repr (k : key) : string := "(" ++ k.1 ++ ", " ++ k.2 ++ ")".

(** [del d[k]] *)
Definition delitem (d : cache) (k : key) : res cache :=
  if bool_decide (k ∈ d) then Ok (filter (fun k' => k' ≠ k) d)
  else Raise (KeyError (key_repr k)).

(** [d[k] = None]: a new key goes last, a present key keeps its place. *)
Definition setitem (d : cache) (k : key) : cache :=
  if bool_decide (k ∈ d) then d else d ++ [k].

(** [for i, k in enumerate(list(d.keys())): del d[k]; if i > MAX//10: break]
    over the snapshot [keys] taken before the loop. *)
Fixpoint evict_loop (i : Z) (keys : list key) (d : cache) : res cache :=
  match keys with
  | [] => Ok d
  | k :: rest =>
      d ← delitem d k;
      if (_DEDUP_MAX / 10 <? i)%Z then Ok d else evict_loop (i + 1) rest d
  end.

(** The cache part of [handle_ingested]: the cache afterwards, and whether
    the message went on to be persisted ([false]: discarded as duplicate). *)
Definition handle_ingested (_dedup_cache : cache) (device_id ts_iso : string)
    : res (cache * bool) :=
  let key := _dedup_key device_id ts_iso in
  if bool_decide (key ∈ _dedup_cache) then Ok (_dedup_cache, false)
  else
    d ← (if (_DEDUP_MAX <=? Z.of_nat (length _dedup_cache))%Z
         then evict_loop 0 _dedup_cache _dedup_cache
         else Ok _dedup_cache);
    Ok (setitem d key, true).

End Dedup.

(** ** main.py: the supervised advisory, rl_advisory_safe *)

Module Advisory.

(** The part of a decision log entry that the advisory computes. *)
Record decision := mkDecision {
  raw_vec : list Q;
  semantic_raw : option (gmap string Q);
  semantic_safe : option (gmap string Q);
  flags : list string
}.

(** [list(raw_vec)] copies, so the caller's vector is not the object that
    [map_action] pads. *)
Definition rl_advisory_safe (raw_vec : list Q) (soc_fraction : Q)
    : res decision :=
  semantic_raw ←
    match raw_vec with
    | [] => Ok None
    | _ =>
        sem ← ActionMapping.returned (ActionMapping.map_action raw_vec);
        Ok (Some sem)
    end;
  '(semantic_safe, flags) ←
    (if truthy semantic_raw then
       match semantic_raw with
       | Some sem =>
           st ← Safety.apply_safety sem soc_fraction; Ok (Some st.1, st.2)
       | None => Ok (None, [])
       end
     else Ok (None, []));
  Ok (mkDecision raw_vec semantic_raw semantic_safe flags).

End Advisory.

(** ** Closed forms of the mapper *)

Module MapperValues.

(** [v[i]] of the padded vector: the element, or the zero the padding
    loop appended. *)
Definition coord (v : list Q) (i : nat) : Q := nth i v 0%Q.

Definition battery1_of (v : list Q) : Q :=
  ActionMapping._battery_power_component (coord v 0)
    ActionMapping.BAT1_MAX_CHARGE ActionMapping.BAT1_MAX_DISCHARGE.

Definition battery2_of (v : list Q) : Q :=
  ActionMapping._battery_power_component (coord v 1)
    ActionMapping.BAT2_MAX_CHARGE ActionMapping.BAT2_MAX_DISCHARGE.

Definition grid_of (v : list Q) : Q :=
  if Qgeb (coord v 2) 0 then (coord v 2 * ActionMapping.GRID_MAX_IMPORT)%Q
  else (- coord v 2 * ActionMapping.GRID_MAX_EXPORT * -1)%Q.

Definition ev_of (v : list Q) : Q :=
  (py_max 0 (py_min 1 (coord v 3)) * ActionMapping.EV_MAX_AGG_CHARGE)%Q.

Definition curtailment_of (v : list Q) : Q :=
  py_max 0 (py_min 1 ((coord v 4 + 1) / 2))%Q.

(** The dictionary [map_action] builds from a non-empty vector. *)
Definition semantic_of (v : list Q) : gmap string Q :=
  {[ "battery_kw" := (battery1_of v + battery2_of v)%Q;
     "battery1_kw" := battery1_of v; "battery2_kw" := battery2_of v;
     "grid_kw" := grid_of v; "ev_kw" := ev_of v;
     "curtailment" := curtailment_of v ]}.

(** Every entry of the vector lies in [-1, 1], the range of the policy. *)
Definition normalized (v : list Q) : Prop :=
  Forall (fun x => (-1 <= x <= 1)%Q) v.

(** Every entry of the vector is at most [10^300] in magnitude.  The
    largest double is about [1.8 * 10^308] and [map_action] multiplies an
    entry by 5000 at most and adds two products, so that on such a vector
    no operation of [map_action] overflows and every value it returns is
    finite. *)
Definition RAW_MAX : Q := inject_Z (10 ^ 300).

Definition bounded (v : list Q) : Prop :=
  Forall (fun x => (- RAW_MAX <= x <= RAW_MAX)%Q) v.

End MapperValues.

(** ** Closed forms of the supervised advisory *)

Module AdvisoryValues.
Import MapperValues.

(** The safe action and the flags of a supervised advisory, from the
    closed forms of the mapper and of the supervisor. *)
Definition safe_of (v : list Q) (soc : Q) : gmap string Q :=
  <["curtailment" := Safety.range_out 0 1 (curtailment_of v)]>
    (<["ev_kw" := Safety.range_out 0 Safety.EV_MAX_CHARGE (ev_of v)]>
       (<["grid_kw" := Safety.range_out 0 Safety.GRID_MAX_IMPORT (grid_of v)]>
          (<["battery_kw" :=
               Safety.battery_out soc (battery1_of v + battery2_of v)]>
             (semantic_of v)))).

Definition flags_of (v : list Q) (soc : Q) : list string :=
  Safety.battery_flags soc (battery1_of v + battery2_of v)
    ++ Safety.range_flags 0 Safety.GRID_MAX_IMPORT
         "NO_EXPORT_SUPPORTED" "CLAMP_GRID_IMPORT" (grid_of v)
    ++ Safety.range_flags 0 Safety.EV_MAX_CHARGE
         "NEG_EV_POWER" "CLAMP_EV_CHARGE" (ev_of v)
    ++ Safety.range_flags 0 1
         "CURTAILMENT_NEG" "CURTAILMENT_GT1" (curtailment_of v).

End AdvisoryValues.

(** ** A stream of messages through the deduplication cache *)

Module DedupRun.

(** [handle_ingested] called once for each message, in order, on the
    module-level cache: the cache at the end and, for each message,
    whether it went on to be persisted. *)
Fixpoint ingest_all (msgs : list (string * string))
    (_dedup_cache : list (string * string))
    : res (list (string * string) * list bool) :=
  match msgs with
  | [] => Ok (_dedup_cache, [])
  | (device_id, ts_iso) :: rest =>
      '(d, accepted) ← Dedup.handle_ingested _dedup_cache device_id ts_iso;
      '(d', outcomes) ← ingest_all rest d;
      Ok (d', accepted :: outcomes)
  end.

End DedupRun.

(** ** emailer.py: the per-key cooldown of EmailAlertSender *)

Module Emailer.

(** The fields of the sender that [send] reads or writes.  [enabled] is
    the property [bool(smtp_host and recipients)]; times are seconds, as
    [time.time()] gives them. *)
Record EmailAlertSender := mkSender {
  enabled : bool;
  cooldown : Z;
  _last_sent : gmap string Q
}.

Definition _should_send (self : EmailAlertSender) (now : Q) (key : string)
    : EmailAlertSender * bool :=
  let last := default 0%Q (_last_sent self !! key) in
  if Qgeb (now - last) (inject_Z (cooldown self)) then
    (mkSender (enabled self) (cooldown self) (<[key := now]> (_last_sent self)),
     true)
  else (self, false).

(** [send]; [delivered] says whether the SMTP exchange went through (an
    exception there is swallowed and answered by [False]). *)
Definition send (self : EmailAlertSender) (now : Q) (key : string)
    (delivered : bool) : EmailAlertSender * bool :=
  if negb (enabled self) then (self, false)
  else
    let '(self, ok) := _should_send self now key in
    if negb ok then (self, false)
    else if delivered then (self, true) else (self, false).

End Emailer.

(** ** mqtt.py: the reconnect loop of MQTTIngestor *)

Module Mqtt.





End Mqtt.

(** ** rl_obs.py *)

Module RlObs.

Definition FORECAST_HORIZON_STEPS : nat := 8.
Definition BATTERY_COUNT : nat := 2.

(** What [build_observation] reads of the clock and of the latest
    telemetry row ([None]: a NULL column). *)
Record datetime := mkTime { hour : Z; minute : Z; weekday : Z }.
Record Telemetry := mkTelemetry { soc : option Q; temperature : option Q }.

Definition repeat (v : Q) (n : nat) : list Q := replicate n v.

Section Observation.
(** [math.sin] and [math.pi]. *)
Variable sin : Q -> Q.
Variable pi : Q.

Definition build_observation (now : datetime) (latest : option Telemetry)
    : list Q :=
  (let hour_ := inject_Z (hour now) / 24 in
   let minute_ := inject_Z (minute now) / 60 in
   let day_of_week := inject_Z (weekday now) / 7 in
   let is_weekend := if (5 <=? weekday now)%Z then 1 else 0 in
   let obs := [hour_; minute_; day_of_week; is_weekend] in
   let solar_profile :=
     py_max 0 (sin (inject_Z (hour now - 6) / 12 * pi)) in
   let wind_profile := 0.5 + 0.3 * sin (inject_Z (hour now) / 24 * 2 * pi) in
   let pv_current := 3200 * solar_profile in
   let wt_current := 2500 * wind_profile in
   let forecast (current step : Q) : list Q :=
     (fun i : nat => current * (1 + step * (inject_Z (Z.of_nat i) + 1)))
       <$> seq 0 FORECAST_HORIZON_STEPS in
   let pv_forecast := forecast pv_current 0.02 in
   let pv_history := repeat pv_current 4 in
   let wt_forecast := forecast wt_current 0.02 in
   let wt_history := repeat wt_current 4 in
   let obs := obs ++ ([pv_current] ++ pv_forecast ++ pv_history) in
   let obs := obs ++ ([wt_current] ++ wt_forecast ++ wt_history) in
   let base_load := 4000 in
   let load_current := base_load + (wt_current * 0.01) - (pv_current * 0.05) in
   let load_forecast := forecast load_current 0.01 in
   let load_history := repeat load_current 4 in
   let obs := obs ++ ([load_current] ++ load_forecast ++ load_history) in
   let '(soc_, temperature_) :=
     match latest with
     | None => (0.5, 30)
     | Some row =>
         (match soc row with Some s => s / 100 | None => 0.5 end,
          match temperature row with Some t => t | None => 30 end)
     end in
   let obs :=
     obs ++ mjoin (replicate BATTERY_COUNT
                     [soc_; 1; temperature_ / 50; 1; 1; 0]) in
   let price_current := 0.12 in
   let price_forecast := replicate FORECAST_HORIZON_STEPS price_current in
   let obs := obs ++ [price_current / 100] in
   let obs := obs ++ ((fun p => p / 100) <$> price_forecast) in
   let obs := obs ++ [5000 / 10000; 3000 / 10000] in
   let obs := obs ++ [0; 0; 0; 0; 0] in
   let obs := obs ++ [temperature_ / 50; 0.5; 0] in
   let obs := obs ++ replicate 16 0 in
   obs)%Q.

End Observation.

Definition get_observation_dim : nat :=
  let temporal := 4 in
  let renew := (1 + FORECAST_HORIZON_STEPS + 4) * 2 in
  let load := 1 + FORECAST_HORIZON_STEPS + 4 in
  let battery_block := 6 * BATTERY_COUNT in
  let grid_block := 1 + FORECAST_HORIZON_STEPS + 2 in
  let ev_block := 5 in
  let health := 3 in
  let recent := (BATTERY_COUNT * 4) + 4 + 4 in
  temporal + renew + load + battery_block + grid_block + ev_block + health
    + recent.

End RlObs.

(** ** crud.py: alerts and telemetry *)

Module Crud.

(** A row of the alerts table; times are instants on the clock of the
    database, as integers. *)
Record Alert := mkAlert {
  id : Z;
  device_id : string;
  ts : Z;
  type : string;
  severity : string;
  message : string;
  value : option Q;
  threshold : option Q;
  ack_ts : option Z
}.

(** [alert.ack_ts = now] *)
Definition with_ack (a : Alert) (now : Z) : Alert :=
  mkAlert (id a) (device_id a) (ts a) (type a) (severity a) (message a)
    (value a) (threshold a) (Some now).

(** [acknowledge_alert]: the table afterwards and the row returned.
    [.filter(Alert.id == alert_id).first()] is the first row of that id;
    [now] is [datetime.utcnow()]. *)
Definition acknowledge_alert (db : list Alert) (alert_id : Z) (now : Z)
    : list Alert * option Alert :=
  match list_find (fun a => id a = alert_id) db with
  | None => (db, None)
  | Some (i, alert) =>
      match ack_ts alert with
      | None =>
          let alert := with_ack alert now in
          (<[i := alert]> db, Some alert)
      | Some _ => (db, Some alert)
      end
  end.

(** A row of the telemetry table. *)
Record Telemetry := mkTelemetry {
  t_device_id : string;
  t_ts : Z;
  voltage : option Q;
  soc : option Q;
  temperature : option Q
}.

Definition ts_desc (r1 r2 : Telemetry) : Prop := (t_ts r2 <= t_ts r1)%Z.

#[global] Instance ts_desc_dec : RelDecision ts_desc.
Proof. intros r1 r2. unfold ts_desc. apply _. Defined.

(** [.filter(device_id == d).order_by(ts.desc()).first()] *)
Definition latest_telemetry (db : list Telemetry) (device : string)
    : option Telemetry :=
  head (merge_sort ts_desc (filter (fun r => t_device_id r = device) db)).

End Crud.

(** ** main.py: get_smart_alerts *)

Module SmartAlerts.

Definition recommendations : gmap string string :=
  {[ "SOC_LOW" :=
       "Schedule opportunistic charge within next hour to avoid deep discharge.";
     "VOLTAGE_HIGH" :=
       "Investigate inverter settings / reduce high demand circuits.";
     "TEMP_HIGH" := "Reduce charge/discharge rate; check cooling airflow.";
     "BATTERY_SOC_RISK" :=
       "Consider shedding non-essential loads or pre-charging from grid if tariff favourable." ]}.

(** The two fields that [get_smart_alerts] adds to an alert of type
    [a_type]: [recommended_action] and [risk_generated]. *)
Definition enrich (a_type : string) : option string * bool :=
  (recommendations !! a_type, bool_decide (a_type = "BATTERY_SOC_RISK")).

End SmartAlerts.

(** ** mqtt.py: MQTTIngestor._on_message *)

Module MqttMessage.

(** A JSON value, as far as the ingestor looks at it. *)
Inductive jval : Type :=
| JStr (s : string)
| JNum (q : Q)
| JOther.

(** What [json.loads] returns: a dictionary, or another JSON value (a
    list, a string, a number, [true], [false], [null]). *)
Inductive json : Type :=
| JDict (data : gmap string jval)
| JNotDict.

(** [s.split(sep)] for a one-character separator. *)
Fixpoint split (sep : Ascii.ascii) (s : string) : list string :=
  match s with
  | EmptyString => [EmptyString]
  | String c rest =>
      if Ascii.eqb c sep then EmptyString :: split sep rest
      else
        match split sep rest with
        | [] => [String c EmptyString]
        | w :: ws => String c w :: ws
        end
  end.

(** [data.setdefault(k, v)] on a dictionary. *)
Definition setdefault (data : gmap string jval) (k : string) (v : jval)
    : gmap string jval :=
  match data !! k with
  | Some _ => data
  | None => <[k := v]> data
  end.

Record counters := mkCounters {
  messages_ok : nat;
  messages_failed : nat
}.

(** [self.messages_ok += 1] and [self.messages_failed += 1] *)
Definition count_ok (self : counters) : counters :=
  mkCounters (messages_ok self + 1) (messages_failed self).
Definition count_failed (self : counters) : counters :=
  mkCounters (messages_ok self) (messages_failed self + 1).

(** The statements of the [try] block before the call of [on_telemetry]:
    [parts = topic.split('/')] and, when there are two parts or more,
    [data.setdefault('device_id', parts[1])].  Only a dictionary has the
    method [setdefault]; on any other value the attribute lookup raises
    AttributeError. *)
Definition prepare (topic : string) (data : json) : res json :=
  let parts := split "/"%char topic in
  if (2 <=? length parts)%nat then
    match data with
    | JDict d =>
        p ← getidx parts 1;
        Ok (JDict (setdefault d "device_id" (JStr p)))
    | JNotDict => Raise AttributeError
    end
  else Ok data.

(** [_on_message]: the counters afterwards and what was handed to
    [on_telemetry], if it was called.  [payload] is the outcome of
    [json.loads(msg.payload.decode())]: a value, or nothing when either
    call raises.  [on_telemetry] answers [true] when it returns and
    [false] when it raises; any exception of the body is caught and
    counted. *)
Definition _on_message (self : counters) (on_telemetry : json -> bool)
    (topic : string) (payload : option json) : counters * option json :=
  match payload with
  | None => (count_failed self, None)
  | Some data =>
      match prepare topic data with
      | Raise _ => (count_failed self, None)
      | Ok data =>
          if on_telemetry data then (count_ok self, Some data)
          else (count_failed self, Some data)
      end
  end.

(** The string has no ['/']. *)
Fixpoint no_slash (s : string) : bool :=
  match s with
  | EmptyString => true
  | String c rest => negb (Ascii.eqb c "/"%char) && no_slash rest
  end.

End MqttMessage.

(** ** flow.py: the latest semantic action, and its writer in main.py *)

Module Flow.





End Flow.

(** ** Sample inputs *)

(** An action without [battery_kw]. *)
Definition no_battery_action : gmap string Q :=
  {[ "grid_kw" := 0%Q; "ev_kw" := 0%Q; "curtailment" := 0%Q ]}.

(** A request far outside the envelope. *)
Definition wild_action : gmap string Q :=
  {[ "battery_kw" := (-500)%Q; "battery1_kw" := (-400)%Q;
     "battery2_kw" := (-100)%Q; "grid_kw" := (-200)%Q; "ev_kw" := 900%Q;
     "curtailment" := (3 # 2)%Q ]}.

(** A partial telemetry payload: no temperature. *)
Definition partial_payload : gmap string Rules.pyval :=
  {[ "soc" := Rules.Num 10; "voltage" := Rules.Num 260 ]}.

(** A cache at capacity: 5000 keys of one device, oldest first. *)
Definition full_cache : list (string * string) :=
  (fun n : nat => ("device-1", pretty n)) <$> seq 0 (Z.to_nat Dedup._DEDUP_MAX).

(** What the supervisor makes of [wild_action] at a state of charge of
    10%, and the flags it raises. *)
Definition wild_action_safe : gmap string Q :=
  {[ "battery_kw" := 0%Q; "battery1_kw" := (-400)%Q;
     "battery2_kw" := (-100)%Q; "grid_kw" := 0%Q; "ev_kw" := 450%Q;
     "curtailment" := 1%Q ]}.

Definition wild_action_flags : list string :=
  ["BLOCK_DISCHARGE_LOW_SOC"; "NO_EXPORT_SUPPORTED";
   "CLAMP_EV_CHARGE"; "CURTAILMENT_GT1"].

(** An action whose battery power is NaN: what [map_action] returns on
    the raw vector [1e308, -1e308, 0, 0, 0], where the two battery
    products overflow to the two infinities and their sum is NaN. *)
Definition nan_action : gmap string Ieee.double :=
  {[ "battery_kw" := Ieee.NaN; "battery1_kw" := Ieee.PosInf;
     "battery2_kw" := Ieee.NegInf; "grid_kw" := Ieee.Finite 0;
     "ev_kw" := Ieee.Finite 0; "curtailment" := Ieee.Finite (1 # 2) ]}.

(** An action with infinities, and none of its fields NaN. *)
Definition infinite_action : gmap string Ieee.double :=
  {[ "battery_kw" := Ieee.PosInf; "grid_kw" := Ieee.NegInf;
     "ev_kw" := Ieee.Finite 600; "curtailment" := Ieee.PosInf ]}.

(** Four decisions of device a and one of device b. *)
Definition sample_decisions : list History.RLDecisionLog :=
  [ History.mkRow 1 "a" None None None None;
    History.mkRow 4 "b" None None None None;
    History.mkRow 3 "a" None None None None;
    History.mkRow 2 "a" None None None None;
    History.mkRow 5 "a" None None None None ].

(** * Properties *)

(** ** Comparisons of floats *)

Lemma Qltb_lt x y : Qltb x y = true <-> (x < y)%Q.
Proof.
  unfold Qltb. rewrite negb_true_iff.
  split.
  - intros H. apply Qnot_le_lt. intros Hle.
    apply Qle_bool_iff in Hle. congruence.
  - intros H. destruct (Qle_bool y x) eqn:E; [|reflexivity].
    apply Qle_bool_iff in E. exfalso. revert E. apply Qlt_not_le, H.
Qed.

Lemma Qltb_ge x y : Qltb x y = false <-> (y <= x)%Q.
Proof.
  unfold Qltb. rewrite negb_false_iff. apply Qle_bool_iff.
Qed.

(** Case analysis on every float comparison in sight, leaving the order
    facts in the context for [lra]. *)
Ltac case_cmp x y :=
  let E := fresh "E" in
  destruct (Qltb x y) eqn:E;
  [apply Qltb_lt in E | apply Qltb_ge in E].

Ltac no_if x :=
  lazymatch x with
  | context [if _ then _ else _] => fail
  | _ => idtac
  end.

Ltac case_all_cmp :=
  unfold Qgtb in *;
  repeat match goal with
  | |- context [Qltb ?x ?y] =>
      no_if x; no_if y; case_cmp x y; cbn [andb orb negb]
  end.

Lemma bind_Ok {A B} (a : A) (f : A -> res B) : (Ok a ≫= f) = f a.
Proof. reflexivity. Qed.

Lemma bind_Raise {A B} (e : exn) (f : A -> res B) : (Raise e ≫= f) = Raise e.
Proof. reflexivity. Qed.

(** ** The safety supervisor *)

Module SafetyTheory.
Import Safety.

Lemma clamp_spec k test v flag (safe : gmap string Q) flags x :
  safe !! k = Some x ->
  clamp k test v flag (safe, flags) =
  Ok (<[k := if test x then v else x]> safe,
      flags ++ if test x then [flag] else []).
Proof.
  intros Hx. unfold clamp, getitem. cbn [fst snd]. rewrite Hx, bind_Ok.
  destruct (test x); [reflexivity|].
  by rewrite insert_id, app_nil_r.
Qed.

Lemma guarded_clamp_spec guard k test v flag (safe : gmap string Q) flags x :
  safe !! k = Some x ->
  guarded_clamp guard k test v flag (safe, flags) =
  Ok (<[k := if guard && test x then v else x]> safe,
      flags ++ if guard && test x then [flag] else []).
Proof.
  intros Hx. unfold guarded_clamp. destruct guard.
  - by apply clamp_spec.
  - cbn [andb]. by rewrite insert_id, app_nil_r.
Qed.

Lemma clamp_missing k test v flag (safe : gmap string Q) flags :
  safe !! k = None ->
  clamp k test v flag (safe, flags) = Raise (KeyError k).
Proof.
  intros Hx. unfold clamp, getitem. cbn [fst]. by rewrite Hx.
Qed.

Ltac solve_lookup :=
  repeat (rewrite lookup_insert_ne by done);
  first [apply lookup_insert_eq | eassumption].

Ltac clamp_step :=
  first
    [ erewrite guarded_clamp_spec by solve_lookup
    | erewrite clamp_spec by solve_lookup ];
  rewrite bind_Ok; cbv beta.

(** What [apply_safety] returns on an action that has the four fields. *)
Lemma apply_safety_spec (semantic : gmap string Q) soc b g e c :
  semantic !! "battery_kw" = Some b ->
  semantic !! "grid_kw" = Some g ->
  semantic !! "ev_kw" = Some e ->
  semantic !! "curtailment" = Some c ->
  apply_safety semantic soc =
  Ok (<["curtailment" := range_out 0 1 c]>
        (<["ev_kw" := range_out 0 EV_MAX_CHARGE e]>
           (<["grid_kw" := range_out 0 GRID_MAX_IMPORT g]>
              (<["battery_kw" := battery_out soc b]> semantic))),
      battery_flags soc b
        ++ range_flags 0 GRID_MAX_IMPORT "NO_EXPORT_SUPPORTED" "CLAMP_GRID_IMPORT" g
        ++ range_flags 0 EV_MAX_CHARGE "NEG_EV_POWER" "CLAMP_EV_CHARGE" e
        ++ range_flags 0 1 "CURTAILMENT_NEG" "CURTAILMENT_GT1" c).
Proof.
  intros Hb Hg He Hc. unfold apply_safety. cbv zeta.
  do 10 clamp_step.
  rewrite !insert_insert_eq.
  unfold battery_out, battery_flags, range_out, range_flags. cbv zeta.
  rewrite app_nil_l, <- !app_assoc. reflexivity.
Qed.

Lemma battery_out_bounds soc b : (-800 <= battery_out soc b <= 800)%Q.
Proof.
  unfold battery_out, BATTERY_MAX_CHARGE_TOTAL, BATTERY_MAX_DISCHARGE_TOTAL.
  cbv zeta. case_all_cmp; lra.
Qed.

Lemma range_out_bounds lo hi x :
  (lo <= hi)%Q -> (lo <= range_out lo hi x <= hi)%Q.
Proof.
  intros Hle. unfold range_out. cbv zeta. case_all_cmp; lra.
Qed.

(** A second pass changes no value and fires no rule. *)
Lemma battery_out_fixed soc b :
  battery_out soc (battery_out soc b) = battery_out soc b /\
  battery_flags soc (battery_out soc b) = [].
Proof.
  unfold battery_flags, battery_out, BATTERY_MAX_CHARGE_TOTAL,
    BATTERY_MAX_DISCHARGE_TOTAL, SOC_020, SOC_090.
  cbv zeta. case_all_cmp; (split; reflexivity) || (exfalso; lra).
Qed.

Lemma range_out_fixed lo hi flo fhi x :
  (lo <= hi)%Q ->
  range_out lo hi (range_out lo hi x) = range_out lo hi x /\
  range_flags lo hi flo fhi (range_out lo hi x) = [].
Proof.
  intros Hle. unfold range_flags, range_out.
  cbv zeta. case_all_cmp; (split; reflexivity) || (exfalso; lra).
Qed.

(** Which flags a block of rules can append, and when. *)
Lemma battery_flags_sub soc b f :
  f ∈ battery_flags soc b ->
  f ∈ ["BLOCK_DISCHARGE_LOW_SOC"; "BLOCK_CHARGE_HIGH_SOC";
       "CLAMP_BATTERY_CHARGE"; "CLAMP_BATTERY_DISCHARGE"].
Proof.
  unfold battery_flags. cbv zeta.
  repeat match goal with
  | |- context [if ?c then _ else _] => destruct c
  end; cbn [app]; rewrite ?elem_of_cons, ?elem_of_nil; tauto.
Qed.

Lemma range_flags_sub lo hi flo fhi x f :
  f ∈ range_flags lo hi flo fhi x -> f = flo \/ f = fhi.
Proof.
  unfold range_flags. cbv zeta.
  repeat match goal with
  | |- context [if ?c then _ else _] => destruct c
  end; cbn [app]; rewrite ?elem_of_cons, ?elem_of_nil; tauto.
Qed.

Lemma range_flags_lo lo hi flo fhi x :
  flo <> fhi -> (lo <= hi)%Q ->
  (flo ∈ range_flags lo hi flo fhi x <-> (x < lo)%Q).
Proof.
  intros Hne Hle. unfold range_flags. cbv zeta.
  case_all_cmp; cbn [app]; rewrite ?elem_of_cons, ?elem_of_nil;
    intuition (try lra; try congruence).
Qed.

Lemma range_flags_hi lo hi flo fhi x :
  flo <> fhi -> (lo <= hi)%Q ->
  (fhi ∈ range_flags lo hi flo fhi x <-> (hi < x)%Q).
Proof.
  intros Hne Hle. unfold range_flags. cbv zeta.
  case_all_cmp; cbn [app]; rewrite ?elem_of_cons, ?elem_of_nil;
    intuition (try lra; try congruence).
Qed.

(** An action that lacks a field: the first read of the first missing
    field raises. *)
Ltac clamp_raises :=
  rewrite clamp_missing
    by (repeat (rewrite lookup_insert_ne by done); assumption);
  reflexivity.

Lemma apply_safety_missing (semantic : gmap string Q) soc :
  ~ has_fields semantic ->
  exists k, k ∈ ["battery_kw"; "grid_kw"; "ev_kw"; "curtailment"] /\
            semantic !! k = None /\
            apply_safety semantic soc = Raise (KeyError k).
Proof.
  intros Hno. unfold apply_safety. cbv zeta.
  destruct (semantic !! "battery_kw") as [b|] eqn:Hb.
  2:{ exists "battery_kw". split; [set_solver|]. split; [done|].
      unfold guarded_clamp.
      destruct (Qltb soc SOC_020); [clamp_raises|]. rewrite bind_Ok.
      destruct (Qgtb soc SOC_090); [clamp_raises|]. rewrite bind_Ok.
      clamp_raises. }
  do 4 clamp_step.
  destruct (semantic !! "grid_kw") as [g|] eqn:Hg.
  2:{ exists "grid_kw". split; [set_solver|]. split; [done|]. clamp_raises. }
  do 2 clamp_step.
  destruct (semantic !! "ev_kw") as [e|] eqn:He.
  2:{ exists "ev_kw". split; [set_solver|]. split; [done|]. clamp_raises. }
  do 2 clamp_step.
  destruct (semantic !! "curtailment") as [c|] eqn:Hc.
  2:{ exists "curtailment". split; [set_solver|]. split; [done|]. clamp_raises. }
  exfalso. apply Hno. unfold has_fields. rewrite Hb, Hg, He, Hc. eauto.
Qed.

Lemma has_fields_dec (semantic : gmap string Q) :
  has_fields semantic \/ ~ has_fields semantic.
Proof.
  unfold has_fields.
  destruct (semantic !! "battery_kw"), (semantic !! "grid_kw"),
    (semantic !! "ev_kw"), (semantic !! "curtailment");
    first [ left; by eauto
          | right; intros (H1 & H2 & H3 & H4);
            first [ by destruct H1 | by destruct H2
                  | by destruct H3 | by destruct H4 ] ].
Qed.

Lemma lookup_safe (semantic : gmap string Q) vb vg ve vc :
  let safe := <["curtailment" := vc]> (<["ev_kw" := ve]>
                (<["grid_kw" := vg]> (<["battery_kw" := vb]> semantic))) in
  safe !! "battery_kw" = Some vb /\ safe !! "grid_kw" = Some vg /\
  safe !! "ev_kw" = Some ve /\ safe !! "curtailment" = Some vc.
Proof. cbv zeta. repeat split; solve_lookup. Qed.

Lemma apply_safety_in_envelope (semantic : gmap string Q) soc :
  has_fields semantic ->
  exists safe flags,
    apply_safety semantic soc = Ok (safe, flags) /\ in_envelope safe.
Proof.
  intros ([b Hb] & [g Hg] & [e He] & [c Hc]).
  do 2 eexists. split; [by apply apply_safety_spec|].
  match goal with |- in_envelope ?m =>
    destruct (lookup_safe semantic (battery_out soc b)
                (range_out 0 GRID_MAX_IMPORT g) (range_out 0 EV_MAX_CHARGE e)
                (range_out 0 1 c)) as (Lb & Lg & Le & Lc)
  end.
  unfold in_envelope. repeat split; eexists; (split; [eassumption|]).
  - apply battery_out_bounds.
  - apply (range_out_bounds 0 GRID_MAX_IMPORT). unfold GRID_MAX_IMPORT. lra.
  - apply (range_out_bounds 0 EV_MAX_CHARGE). unfold EV_MAX_CHARGE. lra.
  - apply (range_out_bounds 0 1). lra.
Qed.

Lemma truthy_has_fields (m : gmap string Q) :
  has_fields m -> truthy (Some m) = true.
Proof.
  intros ([b Hb] & _). unfold truthy. apply negb_true_iff, Nat.eqb_neq.
  apply map_size_ne_0_lookup. eauto.
Qed.

End SafetyTheory.

(** ** The safety supervisor on doubles *)

Module SafetyIeeeTheory.
Import Ieee SafetyIeee.

Lemma clamp_ieee_spec k test v flag (safe : gmap string double) flags x :
  safe !! k = Some x ->
  clamp k test v flag (safe, flags) =
  Ok (<[k := if test x then v else x]> safe,
      flags ++ if test x then [flag] else []).
Proof.
  intros Hx. unfold clamp, getitem. cbn [fst snd]. rewrite Hx, bind_Ok.
  destruct (test x); [reflexivity|].
  by rewrite insert_id, app_nil_r.
Qed.

Lemma guarded_clamp_ieee_spec guard k test v flag (safe : gmap string double)
    flags x :
  safe !! k = Some x ->
  guarded_clamp guard k test v flag (safe, flags) =
  Ok (<[k := if guard && test x then v else x]> safe,
      flags ++ if guard && test x then [flag] else []).
Proof.
  intros Hx. unfold guarded_clamp. destruct guard.
  - by apply clamp_ieee_spec.
  - cbn [andb]. by rewrite insert_id, app_nil_r.
Qed.

Ltac solve_lookup_ieee :=
  repeat (rewrite lookup_insert_ne by done);
  first [apply lookup_insert_eq | eassumption].

Ltac clamp_step_ieee :=
  first
    [ erewrite guarded_clamp_ieee_spec by solve_lookup_ieee
    | erewrite clamp_ieee_spec by solve_lookup_ieee ];
  rewrite bind_Ok; cbv beta.

(** What [apply_safety] returns on an action that has the four fields. *)
Lemma apply_safety_ieee_spec (semantic : gmap string double) soc b g e c :
  semantic !! "battery_kw" = Some b ->
  semantic !! "grid_kw" = Some g ->
  semantic !! "ev_kw" = Some e ->
  semantic !! "curtailment" = Some c ->
  apply_safety semantic soc =
  Ok (<["curtailment" := range_out (Finite 0) (Finite 1) c]>
        (<["ev_kw" := range_out (Finite 0) EV_MAX_CHARGE e]>
           (<["grid_kw" := range_out (Finite 0) GRID_MAX_IMPORT g]>
              (<["battery_kw" := battery_out soc b]> semantic))),
      battery_flags soc b
        ++ range_flags (Finite 0) GRID_MAX_IMPORT
             "NO_EXPORT_SUPPORTED" "CLAMP_GRID_IMPORT" g
        ++ range_flags (Finite 0) EV_MAX_CHARGE
             "NEG_EV_POWER" "CLAMP_EV_CHARGE" e
        ++ range_flags (Finite 0) (Finite 1)
             "CURTAILMENT_NEG" "CURTAILMENT_GT1" c).
Proof.
  intros Hb Hg He Hc. unfold apply_safety. cbv zeta.
  do 10 clamp_step_ieee.
  rewrite !insert_insert_eq.
  unfold battery_out, battery_flags, range_out, range_flags. cbv zeta.
  rewrite app_nil_l, <- !app_assoc. reflexivity.
Qed.

(** On finite values the two supervisors compute the same. *)
Lemma battery_out_finite soc b :
  battery_out (Finite soc) (Finite b) = Finite (Safety.battery_out soc b) /\
  battery_flags (Finite soc) (Finite b) = Safety.battery_flags soc b.
Proof.
  unfold battery_out, battery_flags, Safety.battery_out,
    Safety.battery_flags, gtb, SOC_020, SOC_090, BATTERY_MAX_CHARGE_TOTAL,
    NEG_BATTERY_MAX_DISCHARGE_TOTAL, Qgtb.
  cbv zeta. cbn [ltb].
  repeat match goal with
  | |- context [Qltb ?x ?y] =>
      no_if x; no_if y; destruct (Qltb x y); cbn [andb ltb]
  end; split; reflexivity.
Qed.

Lemma range_out_finite lo hi flo fhi x :
  range_out (Finite lo) (Finite hi) (Finite x)
    = Finite (Safety.range_out lo hi x) /\
  range_flags (Finite lo) (Finite hi) flo fhi (Finite x)
    = Safety.range_flags lo hi flo fhi x.
Proof.
  unfold range_out, range_flags, Safety.range_out, Safety.range_flags,
    gtb, Qgtb.
  cbv zeta. cbn [ltb].
  repeat match goal with
  | |- context [Qltb ?x ?y] =>
      no_if x; no_if y; destruct (Qltb x y); cbn [andb ltb]
  end; split; reflexivity.
Qed.

(** A value that is not NaN ends inside the range of its key. *)
Lemma battery_out_ieee_bounds soc b :
  is_nan b = false ->
  exists q, battery_out soc b = Finite q /\ (-800 <= q <= 800)%Q.
Proof.
  intros Hb. unfold battery_out, gtb, BATTERY_MAX_CHARGE_TOTAL,
    NEG_BATTERY_MAX_DISCHARGE_TOTAL, Safety.BATTERY_MAX_CHARGE_TOTAL,
    Safety.BATTERY_MAX_DISCHARGE_TOTAL.
  cbv zeta.
  destruct (ltb soc SOC_020), (ltb SOC_090 soc), b as [q| | |];
    try discriminate; repeat (cbn [andb ltb]; case_all_cmp);
    eexists; (split; [reflexivity|]); lra.
Qed.

Lemma range_out_ieee_bounds lo hi x :
  (lo <= hi)%Q -> is_nan x = false ->
  exists q, range_out (Finite lo) (Finite hi) x = Finite q /\
            (lo <= q <= hi)%Q.
Proof.
  intros Hle Hx. unfold range_out, gtb. cbv zeta.
  destruct x as [q| | |]; try discriminate;
    repeat (cbn [ltb]; case_all_cmp);
    eexists; (split; [reflexivity|]); lra.
Qed.

(** NaN fails every test: it is stored back as it is, without a flag. *)
Lemma battery_out_nan soc :
  battery_out soc NaN = NaN /\ battery_flags soc NaN = [].
Proof.
  unfold battery_out, battery_flags, gtb. cbv zeta.
  destruct (ltb soc SOC_020), (ltb SOC_090 soc); split; reflexivity.
Qed.

Lemma range_out_nan lo hi flo fhi :
  range_out lo hi NaN = NaN /\ range_flags lo hi flo fhi NaN = [].
Proof.
  unfold range_out, range_flags, gtb. cbv zeta.
  destruct lo, hi; split; reflexivity.
Qed.

Lemma apply_safety_ieee_in_envelope (semantic : gmap string double) soc :
  has_numbers semantic ->
  exists safe flags,
    apply_safety semantic soc = Ok (safe, flags) /\ in_envelope safe.
Proof.
  intros ((b & Hb & Nb) & (g & Hg & Ng) & (e & He & Ne) & (c & Hc & Nc)).
  do 2 eexists. split; [by apply apply_safety_ieee_spec|].
  destruct (battery_out_ieee_bounds soc b Nb) as (qb & Eb & Bb).
  destruct (range_out_ieee_bounds 0 5000 g ltac:(lra) Ng) as (qg & Eg & Bg).
  destruct (range_out_ieee_bounds 0 450 e ltac:(lra) Ne) as (qe & Ee & Be).
  destruct (range_out_ieee_bounds 0 1 c ltac:(lra) Nc) as (qc & Ec & Bc).
  unfold GRID_MAX_IMPORT, EV_MAX_CHARGE, Safety.GRID_MAX_IMPORT,
    Safety.EV_MAX_CHARGE.
  rewrite Eb, Eg, Ee, Ec.
  split; [|split; [|split]]; eexists;
    (split; [by simplify_map_eq|assumption]).
Qed.

(** The supervisor on doubles agrees with the supervisor on rationals on
    every action whose values are finite. *)
Lemma apply_safety_finite (semantic : gmap string Q) (soc : Q) :
  Safety.has_fields semantic ->
  exists safe flags,
    Safety.apply_safety semantic soc = Ok (safe, flags) /\
    apply_safety (Finite <$> semantic) (Finite soc)
      = Ok (Finite <$> safe, flags).
Proof.
  intros ([b Hb] & [g Hg] & [e He] & [c Hc]).
  do 2 eexists. split; [by apply SafetyTheory.apply_safety_spec|].
  rewrite (apply_safety_ieee_spec _ _ (Finite b) (Finite g) (Finite e) (Finite c))
    by (rewrite lookup_fmap; by (rewrite Hb || rewrite Hg || rewrite He
                                  || rewrite Hc)).
  rewrite !fmap_insert.
  destruct (battery_out_finite soc b) as [-> ->].
  unfold GRID_MAX_IMPORT, EV_MAX_CHARGE.
  destruct (range_out_finite 0 Safety.GRID_MAX_IMPORT
              "NO_EXPORT_SUPPORTED" "CLAMP_GRID_IMPORT" g) as [-> ->].
  destruct (range_out_finite 0 Safety.EV_MAX_CHARGE
              "NEG_EV_POWER" "CLAMP_EV_CHARGE" e) as [-> ->].
  destruct (range_out_finite 0 1
              "CURTAILMENT_NEG" "CURTAILMENT_GT1" c) as [-> ->].
  reflexivity.
Qed.

End SafetyIeeeTheory.

(** ** The semantic mapper *)

Module ActionMappingTheory.
Import ActionMapping.

(** With fuel for the missing elements, the padding loop appends exactly
    the missing zeros. *)
Lemma pad_loop_spec fuel (v : list Q) :
  5 - length v <= fuel ->
  pad_loop fuel v = right_pad v.
Proof.
  unfold right_pad. revert v.
  induction fuel as [|fuel IH]; intros v Hfuel; simpl.
  - replace (5 - length v) with 0 by lia. by rewrite app_nil_r.
  - destruct (Nat.ltb_spec (length v) 5) as [Hlt|Hge].
    + rewrite IH by (rewrite length_app; simpl; lia).
      rewrite length_app. simpl.
      replace (5 - length v) with (S (5 - (length v + 1))) by lia.
      simpl. by rewrite <- app_assoc.
    + replace (5 - length v) with 0 by lia. by rewrite app_nil_r.
Qed.

(** Five rounds are enough: the loop ends because its test fails. *)
Lemma pad_loop_exits (v : list Q) :
  pad_loop 5 v = right_pad v /\ (length (pad_loop 5 v) <? 5)%nat = false.
Proof.
  assert (pad_loop 5 v = right_pad v) as -> by (apply pad_loop_spec; lia).
  split; [reflexivity|].
  apply Nat.ltb_ge. unfold right_pad.
  rewrite length_app, length_replicate. lia.
Qed.

Lemma right_pad_length (v : list Q) :
  length (right_pad v) = Nat.max 5 (length v).
Proof. unfold right_pad. rewrite length_app, length_replicate. lia. Qed.

Lemma right_pad_long (v : list Q) : 5 <= length v -> right_pad v = v.
Proof.
  intros H. unfold right_pad.
  replace (5 - length v) with 0 by lia. apply app_nil_r.
Qed.

Lemma right_pad_idem (v : list Q) : right_pad (right_pad v) = right_pad v.
Proof. apply right_pad_long. rewrite right_pad_length. lia. Qed.

(** Past the empty-vector guard, a call depends on the padded vector only. *)
Lemma map_action_padded (v w : list Q) :
  v <> [] -> w <> [] -> right_pad v = right_pad w ->
  map_action v = map_action w.
Proof.
  intros Hv Hw Heq.
  destruct v as [|x v]; [done|]. destruct w as [|y w]; [done|].
  unfold map_action. cbv zeta.
  rewrite !(proj1 (pad_loop_exits _)), Heq. reflexivity.
Qed.

Lemma right_pad_nonempty (v : list Q) : right_pad v <> [].
Proof.
  intros H. apply (f_equal length) in H.
  rewrite right_pad_length in H. simpl in H. lia.
Qed.

Lemma map_action_five x0 x1 x2 x3 x4 (rest : list Q) :
  exists m,
    map_action (x0 :: x1 :: x2 :: x3 :: x4 :: rest) =
      Call (x0 :: x1 :: x2 :: x3 :: x4 :: rest) (Ok m) /\
    mapped m.
Proof.
  eexists. split.
  - unfold map_action. cbv zeta.
    rewrite (proj1 (pad_loop_exits _)), right_pad_long by (simpl; lia).
    unfold getidx. cbn [lookup list_lookup]. rewrite !bind_Ok.
    reflexivity.
  - unfold mapped, Safety.has_fields.
    repeat split; eexists; simplify_map_eq; reflexivity.
Qed.

(** [map_action] returns a full semantic action on every vector. *)
Lemma map_action_total (v : list Q) :
  exists m, returned (map_action v) = Ok m /\ mapped m.
Proof.
  destruct v as [|x v].
  - eexists. split; [reflexivity|].
    unfold mapped, Safety.has_fields.
    repeat split; eexists; simplify_map_eq; reflexivity.
  - rewrite (map_action_padded (x :: v) (right_pad (x :: v)));
      [| done | apply right_pad_nonempty | by rewrite right_pad_idem].
    pose proof (right_pad_length (x :: v)) as Hlen.
    destruct (right_pad (x :: v)) as [|x0 [|x1 [|x2 [|x3 [|x4 rest]]]]];
      simpl in Hlen; try lia.
    destruct (map_action_five x0 x1 x2 x3 x4 rest) as (m & -> & Hm).
    by exists m.
Qed.

End ActionMappingTheory.

(** ** The supervised advisory *)

Module AdvisoryTheory.
Import Advisory.

Lemma rl_advisory_safe_envelope (raw_vec : list Q) soc :
  exists d,
    rl_advisory_safe raw_vec soc = Ok d /\
    forall safe, semantic_safe d = Some safe -> Safety.in_envelope safe.
Proof.
  unfold rl_advisory_safe. destruct raw_vec as [|x v].
  - eexists. split; [reflexivity|]. intros safe. discriminate.
  - destruct (ActionMappingTheory.map_action_total (x :: v))
      as (m & -> & Hm & _).
    rewrite !bind_Ok, (SafetyTheory.truthy_has_fields m Hm).
    destruct (SafetyTheory.apply_safety_in_envelope m soc Hm)
      as (safe & fl & -> & Henv).
    eexists. split; [reflexivity|].
    intros safe'. cbn. by intros [= <-].
Qed.

End AdvisoryTheory.

(** ** The rule evaluator *)

Module RulesTheory.
Import Rules.

Lemma holdsb_holds r x : holdsb r x = true <-> holds r x.
Proof.
  unfold holdsb, holds, Qgtb.
  rewrite orb_true_iff, !andb_true_iff, !bool_decide_eq_true, !Qltb_lt.
  reflexivity.
Qed.

Lemma check_absent r (payload : gmap string pyval) :
  payload !! field r = None -> check r payload = Ok None.
Proof. intros H. unfold check. by rewrite H. Qed.

Lemma check_number r (payload : gmap string pyval) x :
  payload !! field r = Some (Num x) ->
  check r payload = Ok (if holdsb r x then Some (x, threshold r) else None).
Proof.
  intros H. unfold check, holdsb. rewrite H. cbn [float]. rewrite bind_Ok.
  destruct (bool_decide (op r = "lt") && Qltb x (threshold r)); [done|].
  by destruct (bool_decide (op r = "gt") && Qgtb x (threshold r)).
Qed.

(** [check] lets the exception of [float] through. *)
Lemma check_not_number r (payload : gmap string pyval) raw e :
  payload !! field r = Some raw -> float raw = Raise e ->
  check r payload = Raise e.
Proof. intros H He. unfold check. by rewrite H, He. Qed.

(** The generator yields the alerts of the rules that fire, in the order
    of the rules, and ends without an exception. *)
Lemma evaluate_loop_spec rules (payload : gmap string pyval) :
  Forall (readable payload) rules ->
  evaluate_loop rules payload = (omap (fires payload) rules, None).
Proof.
  induction 1 as [|r rules Hr _ IH]; [reflexivity|].
  cbn [evaluate_loop].
  change (omap (fires payload) (r :: rules))
    with (match fires payload r with
          | Some y => y :: omap (fires payload) rules
          | None => omap (fires payload) rules
          end).
  unfold fires at 1.
  destruct Hr as [Habs | [x Hx]].
  - by rewrite (check_absent r payload Habs), Habs.
  - rewrite (check_number r payload x Hx), Hx.
    destruct (holdsb r x); [|assumption].
    by rewrite IH.
Qed.

End RulesTheory.

(** ** The decision history *)

Module HistoryTheory.
Import History.

#[local] Instance id_desc_total : Total id_desc.
Proof. intros r1 r2. unfold id_desc. lia. Qed.

#[local] Instance id_desc_trans : Transitive id_desc.
Proof. intros r1 r2 r3. unfold id_desc. lia. Qed.

(** The two filters of the query select the rows in scope. *)
Lemma query_filters (db : list RLDecisionLog) device before_id :
  match before_id with
  | Some b => filter (fun r => (id r < b)%Z)
                (filter (fun r => device_id r = device) db)
  | None => filter (fun r => device_id r = device) db
  end = matching db device before_id.
Proof.
  unfold matching, in_scope. destruct before_id as [b|].
  - rewrite list_filter_filter. apply list_filter_iff. intros r.
    rewrite andb_true_iff, bool_decide_eq_true, Z.ltb_lt. tauto.
  - apply list_filter_iff. intros r.
    rewrite andb_true_iff, bool_decide_eq_true. tauto.
Qed.

Lemma scoped_length db device before_id :
  length (scoped db device before_id) = length (matching db device before_id).
Proof.
  unfold scoped, order_by_id_desc.
  apply Permutation_length, merge_sort_Permutation.
Qed.

Lemma list_rl_decisions_spec db device limit before_id :
  list_rl_decisions db device limit before_id =
  (take limit (scoped db device before_id),
   (limit <? length (matching db device before_id))%nat).
Proof.
  unfold list_rl_decisions. cbv zeta. rewrite query_filters.
  fold (scoped db device before_id).
  rewrite <- scoped_length, length_take.
  destruct (Nat.ltb_spec limit (length (scoped db device before_id)))
    as [Hlt|Hge].
  - replace (limit <? (limit + 1) `min` length (scoped db device before_id))%nat
      with true by (symmetry; apply Nat.ltb_lt; lia).
    rewrite take_take. f_equal. f_equal. lia.
  - replace (limit <? (limit + 1) `min` length (scoped db device before_id))%nat
      with false by (symmetry; apply Nat.ltb_ge; lia).
    f_equal. rewrite !take_ge by lia. reflexivity.
Qed.

Lemma scoped_descending db device before_id n :
  ids_descending (take n (scoped db device before_id)).
Proof.
  unfold ids_descending.
  apply (StronglySorted_app_1_l _ _ (drop n (scoped db device before_id))).
  rewrite take_drop. apply StronglySorted_merge_sort; apply _.
Qed.

Lemma scoped_elem db device before_id n r :
  r ∈ take n (scoped db device before_id) ->
  r ∈ db /\ device_id r = device /\
  forall b, before_id = Some b -> (id r < b)%Z.
Proof.
  intros Hin. apply (subseteq_take n) in Hin.
  unfold scoped, order_by_id_desc in Hin.
  rewrite merge_sort_Permutation in Hin.
  unfold matching in Hin. apply list_elem_of_filter in Hin as [Hsc Hdb].
  unfold in_scope in Hsc.
  apply andb_true_iff in Hsc as [Hdev Hbefore].
  apply bool_decide_eq_true in Hdev.
  split; [assumption|]. split; [assumption|].
  intros b ->. by apply Z.ltb_lt.
Qed.

(** The loop over the rows keeps the smallest id seen. *)
Lemma min_id_spec rows acc :
  match foldl min_id_step acc rows with
  | None => acc = None /\ rows = []
  | Some m =>
      (Some m = acc \/ m ∈ (id <$> rows)) /\
      (forall a, acc = Some a -> (m <= a)%Z) /\
      (forall r, r ∈ rows -> (m <= id r)%Z)
  end.
Proof.
  revert acc. induction rows as [|r rows IH]; intros acc.
  - cbn. destruct acc as [a|]; [|done].
    split; [by left|]. split; [by intros ? [= <-]|]. by intros r ?%elem_of_nil.
  - cbn [foldl]. specialize (IH (min_id_step acc r)).
    destruct (foldl min_id_step (min_id_step acc r) rows) as [m|].
    + destruct IH as (Hin & Hacc & Hrows).
      assert (m <= id r)%Z as Hr.
      { destruct acc as [a|]; cbn in Hacc.
        - destruct (id r <? a)%Z eqn:E.
          + by apply Hacc.
          + apply Z.ltb_ge in E. specialize (Hacc a eq_refl). lia.
        - by apply Hacc. }
      split; [|split].
      * destruct Hin as [Hin|Hin].
        -- destruct acc as [a|]; cbn in Hin.
           ++ destruct (id r <? a)%Z.
              ** right. injection Hin as ->. rewrite fmap_cons. by left.
              ** by left.
           ++ right. injection Hin as ->. rewrite fmap_cons. by left.
        -- right. rewrite fmap_cons. by right.
      * intros a ->. cbn in Hacc.
        destruct (id r <? a)%Z eqn:E.
        -- apply Z.ltb_lt in E. lia.
        -- by apply Hacc.
      * intros r' [->|Hin']%elem_of_cons; [assumption|by apply Hrows].
    + destruct IH as [Hnone _]. destruct acc as [a|]; cbn in Hnone.
      * by destruct (id r <? a)%Z.
      * discriminate.
Qed.

End HistoryTheory.

(** ** The deduplication cache *)

Module DedupTheory.
Import Dedup.

Lemma dedup_tenth : (_DEDUP_MAX / 10 = 500)%Z.
Proof. reflexivity. Qed.

Lemma filter_other (k : key) (d : cache) :
  k ∉ d -> filter (fun k' => k' ≠ k) d = d.
Proof.
  induction d as [|k' d IH]; intros Hnot; [reflexivity|].
  apply not_elem_of_cons in Hnot as [Hne Hnot].
  rewrite filter_cons_True by congruence. by rewrite IH.
Qed.

(** Deleting the oldest key of a dictionary leaves the others in order. *)
Lemma delitem_oldest (k : key) (d : cache) :
  k ∉ d -> delitem (k :: d) k = Ok d.
Proof.
  intros Hnot. unfold delitem.
  rewrite bool_decide_eq_true_2 by (by left).
  rewrite filter_cons_False by (intros H; by apply H).
  by rewrite filter_other.
Qed.

(** Started at index [i] on the keys of the dictionary itself, the
    eviction loop deletes the keys of index [i] to [_DEDUP_MAX // 10 + 1]
    and raises nothing. *)
Lemma evict_loop_spec (d : cache) (i : Z) :
  NoDup d -> (0 <= i <= 501)%Z ->
  evict_loop i d d = Ok (drop (Z.to_nat (502 - i)) d).
Proof.
  intros Hnd. revert i.
  induction Hnd as [|k d Hnot Hnd IH]; intros i Hi.
  - by rewrite drop_nil.
  - cbn [evict_loop]. rewrite (delitem_oldest k d Hnot), bind_Ok, dedup_tenth.
    destruct (Z.ltb_spec 500 i) as [Hlast|Hmore].
    + replace (Z.to_nat (502 - i)) with 1 by lia. reflexivity.
    + rewrite IH by lia.
      replace (Z.to_nat (502 - i)) with (S (Z.to_nat (502 - (i + 1)))) by lia.
      reflexivity.
Qed.

Lemma setitem_new (d : cache) (k : key) : k ∉ d -> setitem d k = d ++ [k].
Proof. intros H. unfold setitem. by rewrite bool_decide_eq_false_2. Qed.

(** What [handle_ingested] does to the cache. *)
Lemma handle_ingested_spec (d : cache) device ts :
  NoDup d ->
  handle_ingested d device ts =
  Ok (if bool_decide ((device, ts) ∈ d) then (d, false)
      else if (_DEDUP_MAX <=? Z.of_nat (length d))%Z
           then (drop 502 d ++ [(device, ts)], true)
           else (d ++ [(device, ts)], true)).
Proof.
  intros Hnd. unfold handle_ingested, _dedup_key. cbv zeta.
  destruct (bool_decide ((device, ts) ∈ d)) eqn:Hin; [reflexivity|].
  apply bool_decide_eq_false in Hin.
  destruct (_DEDUP_MAX <=? Z.of_nat (length d))%Z.
  - rewrite (evict_loop_spec d 0 Hnd) by lia. rewrite bind_Ok.
    change (Z.to_nat (502 - 0)) with 502.
    rewrite setitem_new; [reflexivity|].
    intros H. apply Hin. by apply (subseteq_drop 502).
  - rewrite bind_Ok. by rewrite setitem_new.
Qed.

End DedupTheory.

(** * The claims *)

(** C1, as stated, fails: on an action that lacks [battery_kw] the
    supervisor raises [KeyError] instead of clamping and flagging. *)
Lemma apply_safety_raises_on_missing_field :
  Safety.apply_safety no_battery_action (1 # 2) = Raise (KeyError "battery_kw").
Proof. vm_compute. reflexivity. Qed.

(** C1, amended: [apply_safety] returns (raises nothing) on every action
    that has the four fields [battery_kw], [grid_kw], [ev_kw] and
    [curtailment], for every state of charge; on an action that lacks one
    of them it raises [KeyError] for a missing field. *)
Theorem apply_safety_total_on_full_actions (semantic : gmap string Q) (soc : Q) :
  (Safety.has_fields semantic /\
   exists safe flags, Safety.apply_safety semantic soc = Ok (safe, flags)) \/
  (~ Safety.has_fields semantic /\
   exists k, k ∈ ["battery_kw"; "grid_kw"; "ev_kw"; "curtailment"] /\
             semantic !! k = None /\
             Safety.apply_safety semantic soc = Raise (KeyError k)).
Proof.
  destruct (SafetyTheory.has_fields_dec semantic) as [Hyes|Hno].
  - left. split; [assumption|].
    destruct (SafetyTheory.apply_safety_in_envelope semantic soc Hyes)
      as (safe & flags & Heq & _).
    eauto.
  - right. split; [assumption|].
    by apply SafetyTheory.apply_safety_missing.
Qed.

Lemma wild_action_has_fields : Safety.has_fields wild_action.
Proof. repeat split; eexists; vm_compute; reflexivity. Qed.

(** C2, the claim as stated fails on an action whose battery power is
    NaN, which is what the mapper returns on the raw vector
    [1e308, -1e308, 0, 0, 0]: NaN fails every comparison, so
    [apply_safety] returns the action as it received it, with no flag,
    and its battery_kw is in no range. *)
Lemma apply_safety_passes_nan :
  SafetyIeee.has_fields nan_action /\
  SafetyIeee.apply_safety nan_action (Ieee.Finite (1 # 2))
    = Ok (nan_action, []) /\
  ~ SafetyIeee.in_envelope nan_action.
Proof.
  split; [|split].
  - repeat split; eexists; vm_compute; reflexivity.
  - vm_compute. reflexivity.
  - intros ((b & Hb & _) & _). vm_compute in Hb. discriminate.
Qed.

(** C2, as amended: on every action whose four fields are not NaN, be
    they finite or infinite, and for every state of charge, NaN included,
    the action that [apply_safety] returns lies in the envelope:
    battery_kw in [-800, 800], grid_kw in [0, 5000], ev_kw in [0, 450],
    curtailment in [0, 1]; and the [semantic_safe] that
    [rl_advisory_safe] logs for a raw vector whose entries are at most
    [10^300] in magnitude, on which the mapper cannot overflow, lies in
    the envelope when there is one. *)
Theorem apply_safety_envelope_without_nan
    (semantic : gmap string Ieee.double) (soc : Ieee.double)
    (raw_vec : list Q) (soc_fraction : Q) :
  SafetyIeee.has_numbers semantic ->
  MapperValues.bounded raw_vec ->
  (exists safe flags,
     SafetyIeee.apply_safety semantic soc = Ok (safe, flags) /\
     SafetyIeee.in_envelope safe) /\
  (exists d,
     Advisory.rl_advisory_safe raw_vec soc_fraction = Ok d /\
     forall safe, Advisory.semantic_safe d = Some safe ->
                  Safety.in_envelope safe).
Proof.
  intros Hn _. split.
  - by apply SafetyIeeeTheory.apply_safety_ieee_in_envelope.
  - apply AdvisoryTheory.rl_advisory_safe_envelope.
Qed.

Lemma apply_safety_envelope_without_nan_witness :
  SafetyIeee.has_numbers infinite_action /\
  MapperValues.bounded [(1 # 2)%Q; (-1)%Q; 2%Q] /\
  (exists safe flags,
     SafetyIeee.apply_safety infinite_action Ieee.NaN = Ok (safe, flags) /\
     SafetyIeee.in_envelope safe) /\
  (exists d,
     Advisory.rl_advisory_safe [(1 # 2)%Q; (-1)%Q; 2%Q] (1 # 10) = Ok d /\
     forall safe, Advisory.semantic_safe d = Some safe ->
                  Safety.in_envelope safe).
Proof.
  assert (SafetyIeee.has_numbers infinite_action) as Hn
    by (repeat split; eexists; (split; [vm_compute; reflexivity|reflexivity])).
  assert (MapperValues.bounded [(1 # 2)%Q; (-1)%Q; 2%Q]) as Hb
    by (repeat apply Forall_cons_2; [..|apply Forall_nil_2];
        split; apply Qle_bool_iff; vm_compute; reflexivity).
  split; [exact Hn|]. split; [exact Hb|].
  exact (apply_safety_envelope_without_nan infinite_action Ieee.NaN
           [(1 # 2)%Q; (-1)%Q; 2%Q] (1 # 10) Hn Hb).
Defined.

(** The double [0.20] lies just above 1/5, so every state of charge below
    1/5 is below it. *)
Lemma SOC_020_above_fifth : (1 # 5 < Safety.SOC_020)%Q.
Proof. reflexivity. Qed.

(** C3: when the state of charge is below 0.20 and the requested
    battery_kw is negative, [apply_safety] returns battery_kw = 0 and its
    flags include BLOCK_DISCHARGE_LOW_SOC.  The witness is the scenario
    soc = 0.10, battery_kw = -500. *)
Theorem low_soc_blocks_discharge (semantic : gmap string Q) (soc b : Q) :
  Safety.has_fields semantic ->
  semantic !! "battery_kw" = Some b ->
  (b < 0)%Q ->
  (soc < Safety.SOC_020)%Q ->
  exists safe flags,
    Safety.apply_safety semantic soc = Ok (safe, flags) /\
    safe !! "battery_kw" = Some 0%Q /\
    "BLOCK_DISCHARGE_LOW_SOC" ∈ flags.
Proof.
  intros (_ & [g Hg] & [e He] & [c Hc]) Hb Hneg Hsoc.
  do 2 eexists. split; [by apply SafetyTheory.apply_safety_spec|].
  apply Qltb_lt in Hneg, Hsoc.
  assert (Safety.battery_out soc b = 0%Q /\
          exists rest, Safety.battery_flags soc b =
                       "BLOCK_DISCHARGE_LOW_SOC" :: rest) as [Hout [rest Hfl]].
  { unfold Safety.battery_out, Safety.battery_flags.
    rewrite Hsoc, Hneg. cbn [andb]. cbv zeta.
    unfold Safety.BATTERY_MAX_CHARGE_TOTAL, Safety.BATTERY_MAX_DISCHARGE_TOTAL.
    replace (Qgtb soc Safety.SOC_090 && Qgtb 0 0) with false
      by (rewrite andb_comm; reflexivity).
    split; [reflexivity|]. eexists. reflexivity. }
  split.
  - rewrite <- Hout. apply SafetyTheory.lookup_safe.
  - rewrite Hfl. apply elem_of_cons. by left.
Qed.

Lemma low_soc_blocks_discharge_witness :
  exists safe flags,
    Safety.apply_safety wild_action (1 # 10) = Ok (safe, flags) /\
    safe !! "battery_kw" = Some 0%Q /\
    "BLOCK_DISCHARGE_LOW_SOC" ∈ flags.
Proof.
  apply (low_soc_blocks_discharge wild_action (1 # 10) (-500)).
  - exact wild_action_has_fields.
  - vm_compute. reflexivity.
  - reflexivity.
  - reflexivity.
Defined.

(** C4: a negative grid_kw is forced to 0 with flag NO_EXPORT_SUPPORTED; a
    grid_kw above 5000 is clamped to 5000 with flag CLAMP_GRID_IMPORT; a
    grid_kw in [0, 5000] is kept, with neither flag.  The witness is the
    scenario grid_kw = -200. *)
Theorem grid_export_blocked_import_clamped (semantic : gmap string Q)
    (soc g : Q) :
  Safety.has_fields semantic ->
  semantic !! "grid_kw" = Some g ->
  exists safe flags,
    Safety.apply_safety semantic soc = Ok (safe, flags) /\
    ((g < 0)%Q ->
       safe !! "grid_kw" = Some 0%Q /\ "NO_EXPORT_SUPPORTED" ∈ flags /\
       ("CLAMP_GRID_IMPORT" ∉ flags)) /\
    ((5000 < g)%Q ->
       safe !! "grid_kw" = Some 5000%Q /\ "CLAMP_GRID_IMPORT" ∈ flags /\
       ("NO_EXPORT_SUPPORTED" ∉ flags)) /\
    ((0 <= g <= 5000)%Q ->
       safe !! "grid_kw" = Some g /\ ("NO_EXPORT_SUPPORTED" ∉ flags) /\
       ("CLAMP_GRID_IMPORT" ∉ flags)).
Proof.
  intros ([b Hb] & _ & [e He] & [c Hc]) Hg.
  do 2 eexists. split; [by apply SafetyTheory.apply_safety_spec|].
  pose proof (SafetyTheory.lookup_safe semantic
                (Safety.battery_out soc b)
                (Safety.range_out 0 Safety.GRID_MAX_IMPORT g)
                (Safety.range_out 0 Safety.EV_MAX_CHARGE e)
                (Safety.range_out 0 1 c)) as (_ & Lg & _).
  cbv zeta in Lg. rewrite Lg.
  assert (forall f, f = "NO_EXPORT_SUPPORTED" \/ f = "CLAMP_GRID_IMPORT" ->
            (f ∈ Safety.battery_flags soc b
               ++ Safety.range_flags 0 Safety.GRID_MAX_IMPORT
                    "NO_EXPORT_SUPPORTED" "CLAMP_GRID_IMPORT" g
               ++ Safety.range_flags 0 Safety.EV_MAX_CHARGE
                    "NEG_EV_POWER" "CLAMP_EV_CHARGE" e
               ++ Safety.range_flags 0 1
                    "CURTAILMENT_NEG" "CURTAILMENT_GT1" c
             <-> f ∈ Safety.range_flags 0 Safety.GRID_MAX_IMPORT
                       "NO_EXPORT_SUPPORTED" "CLAMP_GRID_IMPORT" g)) as Hin.
  { intros f Hf. rewrite !elem_of_app. split; [|tauto].
    intros [H|[H|[H|H]]]; [|assumption| |].
    - apply SafetyTheory.battery_flags_sub in H.
      rewrite !elem_of_cons, elem_of_nil in H.
      destruct Hf as [-> | ->]; intuition discriminate.
    - apply SafetyTheory.range_flags_sub in H.
      destruct Hf as [-> | ->]; intuition discriminate.
    - apply SafetyTheory.range_flags_sub in H.
      destruct Hf as [-> | ->]; intuition discriminate. }
  rewrite !Hin by tauto.
  rewrite SafetyTheory.range_flags_lo, SafetyTheory.range_flags_hi
    by (done || (unfold Safety.GRID_MAX_IMPORT; lra)).
  unfold Safety.range_out, Safety.GRID_MAX_IMPORT. cbv zeta.
  repeat split; intros; try lra.
  - apply Qltb_lt in H. rewrite H. reflexivity.
  - assert (Qltb g 0 = false) as -> by (apply Qltb_ge; lra).
    unfold Qgtb. apply Qltb_lt in H. by rewrite H.
  - assert (Qltb g 0 = false) as -> by (apply Qltb_ge; lra).
    unfold Qgtb. assert (Qltb 5000 g = false) as -> by (apply Qltb_ge; lra).
    reflexivity.
Qed.

Lemma grid_export_blocked_import_clamped_witness :
  exists safe flags,
    Safety.apply_safety wild_action (1 # 10) = Ok (safe, flags) /\
    ((-200 < 0)%Q ->
       safe !! "grid_kw" = Some 0%Q /\ "NO_EXPORT_SUPPORTED" ∈ flags /\
       ("CLAMP_GRID_IMPORT" ∉ flags)) /\
    ((5000 < -200)%Q ->
       safe !! "grid_kw" = Some 5000%Q /\ "CLAMP_GRID_IMPORT" ∈ flags /\
       ("NO_EXPORT_SUPPORTED" ∉ flags)) /\
    ((0 <= -200 <= 5000)%Q ->
       safe !! "grid_kw" = Some (-200)%Q /\ ("NO_EXPORT_SUPPORTED" ∉ flags) /\
       ("CLAMP_GRID_IMPORT" ∉ flags)).
Proof.
  apply (grid_export_blocked_import_clamped wild_action (1 # 10) (-200)).
  - exact wild_action_has_fields.
  - vm_compute. reflexivity.
Defined.

(** C5, as stated, fails: the supervisor returns the action together with
    the flags that fired, and on the action it has already clamped no rule
    fires, so the second result carries an empty flag list where the first
    carries BLOCK_DISCHARGE_LOW_SOC and three more. *)
Lemma supervise_twice_loses_flags :
  let safe : gmap string Q :=
    {[ "battery_kw" := 0%Q; "battery1_kw" := (-400)%Q;
       "battery2_kw" := (-100)%Q; "grid_kw" := 0%Q; "ev_kw" := 450%Q;
       "curtailment" := 1%Q ]} in
  Safety.apply_safety wild_action (1 # 10) =
    Ok (safe, ["BLOCK_DISCHARGE_LOW_SOC"; "NO_EXPORT_SUPPORTED";
               "CLAMP_EV_CHARGE"; "CURTAILMENT_GT1"]) /\
  Safety.apply_safety safe (1 # 10) = Ok (safe, []) /\
  Safety.apply_safety safe (1 # 10) <> Safety.apply_safety wild_action (1 # 10).
Proof.
  intros safe.
  assert (Safety.apply_safety wild_action (1 # 10) =
            Ok (safe, ["BLOCK_DISCHARGE_LOW_SOC"; "NO_EXPORT_SUPPORTED";
                       "CLAMP_EV_CHARGE"; "CURTAILMENT_GT1"])) as H1
    by (vm_compute; reflexivity).
  assert (Safety.apply_safety safe (1 # 10) = Ok (safe, [])) as H2
    by (vm_compute; reflexivity).
  repeat split; try assumption.
  rewrite H1, H2. intros [= Hflags].
Qed.

(** C5, amended: the clamped action is a fixed point of the supervisor: on
    every action with the four fields, a second pass returns the same
    action and fires no rule (its flag list is empty). *)
Theorem apply_safety_idempotent_on_action (semantic : gmap string Q) (soc : Q) :
  Safety.has_fields semantic ->
  exists safe flags,
    Safety.apply_safety semantic soc = Ok (safe, flags) /\
    Safety.apply_safety safe soc = Ok (safe, []).
Proof.
  intros ([b Hb] & [g Hg] & [e He] & [c Hc]).
  do 2 eexists. split; [by apply SafetyTheory.apply_safety_spec|].
  destruct (SafetyTheory.lookup_safe semantic
              (Safety.battery_out soc b)
              (Safety.range_out 0 Safety.GRID_MAX_IMPORT g)
              (Safety.range_out 0 Safety.EV_MAX_CHARGE e)
              (Safety.range_out 0 1 c)) as (Lb & Lg & Le & Lc).
  cbv zeta in Lb, Lg, Le, Lc.
  rewrite (SafetyTheory.apply_safety_spec _ soc _ _ _ _ Lb Lg Le Lc).
  destruct (SafetyTheory.battery_out_fixed soc b) as [-> ->].
  destruct (SafetyTheory.range_out_fixed 0 Safety.GRID_MAX_IMPORT
              "NO_EXPORT_SUPPORTED" "CLAMP_GRID_IMPORT" g) as [-> ->];
    [unfold Safety.GRID_MAX_IMPORT; lra|].
  destruct (SafetyTheory.range_out_fixed 0 Safety.EV_MAX_CHARGE
              "NEG_EV_POWER" "CLAMP_EV_CHARGE" e) as [-> ->];
    [unfold Safety.EV_MAX_CHARGE; lra|].
  destruct (SafetyTheory.range_out_fixed 0 1
              "CURTAILMENT_NEG" "CURTAILMENT_GT1" c) as [-> ->]; [lra|].
  cbn [app]. f_equal. f_equal.
  rewrite (insert_id _ "battery_kw") by exact Lb.
  rewrite (insert_id _ "grid_kw") by exact Lg.
  rewrite (insert_id _ "ev_kw") by exact Le.
  by rewrite (insert_id _ "curtailment") by exact Lc.
Qed.

Lemma apply_safety_idempotent_on_action_witness :
  exists safe flags,
    Safety.apply_safety wild_action (1 # 10) = Ok (safe, flags) /\
    Safety.apply_safety safe (1 # 10) = Ok (safe, []).
Proof.
  apply (apply_safety_idempotent_on_action wild_action (1 # 10)).
  exact wild_action_has_fields.
Defined.

(** C6, as stated, fails on the empty vector: the guard at the head of
    [map_action] answers it with the all-zero action, curtailment 0, while
    five zeros map to curtailment (0 + 1) / 2 = 1/2. *)
Lemma empty_vector_differs_from_padded :
  exists m_empty m_padded,
    ActionMapping.returned (ActionMapping.map_action []) = Ok m_empty /\
    ActionMapping.returned
      (ActionMapping.map_action (ActionMapping.right_pad [])) = Ok m_padded /\
    m_empty !! "curtailment" = Some 0%Q /\
    m_padded !! "curtailment" = Some (1 # 2)%Q /\
    ActionMapping.returned (ActionMapping.map_action []) <>
    ActionMapping.returned
      (ActionMapping.map_action (ActionMapping.right_pad [])).
Proof.
  do 2 eexists.
  split; [vm_compute; reflexivity|].
  split; [vm_compute; reflexivity|].
  split; [vm_compute; reflexivity|].
  split; [vm_compute; reflexivity|].
  intros H.
  apply (f_equal (fun r => match r with
                           | Ok m => m !! "curtailment"
                           | Raise _ => None
                           end)) in H.
  vm_compute in H. discriminate.
Qed.

(** C6, amended: for every non-empty raw vector of length below 5,
    [map_action] returns the same semantic action as on the vector
    right-padded with zeros to length 5; the empty vector is answered by
    the all-zero action. *)
Theorem map_action_pads_short_vectors (raw_vector : list Q) :
  raw_vector <> [] ->
  length raw_vector < 5 ->
  ActionMapping.returned (ActionMapping.map_action raw_vector) =
  ActionMapping.returned
    (ActionMapping.map_action (ActionMapping.right_pad raw_vector)) /\
  length (ActionMapping.right_pad raw_vector) = 5 /\
  ActionMapping.returned (ActionMapping.map_action []) =
    Ok {[ "battery_kw" := 0%Q; "battery1_kw" := 0%Q; "battery2_kw" := 0%Q;
          "grid_kw" := 0%Q; "ev_kw" := 0%Q; "curtailment" := 0%Q ]}.
Proof.
  intros Hne Hlen. split; [|split].
  - f_equal. apply ActionMappingTheory.map_action_padded.
    + assumption.
    + apply ActionMappingTheory.right_pad_nonempty.
    + by rewrite ActionMappingTheory.right_pad_idem.
  - rewrite ActionMappingTheory.right_pad_length. lia.
  - reflexivity.
Qed.

Lemma map_action_pads_short_vectors_witness :
  ActionMapping.returned
    (ActionMapping.map_action [(1 # 2)%Q; (-1 # 4)%Q]) =
  ActionMapping.returned
    (ActionMapping.map_action
       (ActionMapping.right_pad [(1 # 2)%Q; (-1 # 4)%Q])) /\
  length (ActionMapping.right_pad [(1 # 2)%Q; (-1 # 4)%Q]) = 5 /\
  ActionMapping.returned (ActionMapping.map_action []) =
    Ok {[ "battery_kw" := 0%Q; "battery1_kw" := 0%Q; "battery2_kw" := 0%Q;
          "grid_kw" := 0%Q; "ev_kw" := 0%Q; "curtailment" := 0%Q ]}.
Proof.
  apply (map_action_pads_short_vectors [(1 # 2)%Q; (-1 # 4)%Q]).
  - discriminate.
  - simpl. lia.
Defined.

(** C10: [map_action] writes to its argument: called on a list of one to
    four elements it leaves that list with zeros appended, of length 5, and
    so different from what the caller passed. *)
Theorem map_action_mutates_argument (raw_vector : list Q) :
  1 <= length raw_vector <= 4 ->
  ActionMapping.arg_after (ActionMapping.map_action raw_vector) =
    raw_vector ++ replicate (5 - length raw_vector) 0%Q /\
  length (ActionMapping.arg_after (ActionMapping.map_action raw_vector)) = 5 /\
  ActionMapping.arg_after (ActionMapping.map_action raw_vector) <> raw_vector.
Proof.
  intros Hlen.
  assert (ActionMapping.arg_after (ActionMapping.map_action raw_vector) =
          ActionMapping.right_pad raw_vector) as Hafter.
  { destruct raw_vector as [|x v]; [simpl in Hlen; lia|].
    unfold ActionMapping.map_action. cbv zeta.
    apply ActionMappingTheory.pad_loop_exits. }
  rewrite Hafter. split; [reflexivity|]. split.
  - rewrite ActionMappingTheory.right_pad_length. lia.
  - intros Heq. apply (f_equal length) in Heq.
    rewrite ActionMappingTheory.right_pad_length in Heq. lia.
Qed.

Lemma map_action_mutates_argument_witness :
  ActionMapping.arg_after (ActionMapping.map_action [(1 # 2)%Q; (-1 # 4)%Q]) =
    [(1 # 2)%Q; (-1 # 4)%Q] ++ replicate (5 - 2) 0%Q /\
  length (ActionMapping.arg_after
            (ActionMapping.map_action [(1 # 2)%Q; (-1 # 4)%Q])) = 5 /\
  ActionMapping.arg_after (ActionMapping.map_action [(1 # 2)%Q; (-1 # 4)%Q])
    <> [(1 # 2)%Q; (-1 # 4)%Q].
Proof.
  apply (map_action_mutates_argument [(1 # 2)%Q; (-1 # 4)%Q]).
  simpl. lia.
Defined.

(** C7: on a telemetry payload (each rule's field absent or a number), a
    rule whose field is absent yields no alert and raises nothing; a rule
    whose field is present yields an alert, carrying the observed value
    and the threshold, exactly when its lt/gt comparison holds; and
    [evaluate] yields the alerts of the rules that fire in the order the
    rules are declared, without an exception. *)
Theorem rule_evaluator_alerts (payload : gmap string Rules.pyval) :
  Forall (Rules.readable payload) Rules.RULES ->
  Rules.evaluate payload = (omap (Rules.fires payload) Rules.RULES, None) /\
  forall r,
    (payload !! Rules.field r = None ->
       Rules.check r payload = Ok None /\ Rules.fires payload r = None) /\
    (forall x, payload !! Rules.field r = Some (Rules.Num x) ->
       (Rules.holds r x ->
          Rules.check r payload = Ok (Some (x, Rules.threshold r)) /\
          Rules.fires payload r = Some (Rules.alert_of r x)) /\
       (~ Rules.holds r x ->
          Rules.check r payload = Ok None /\
          Rules.fires payload r = None)).
Proof.
  intros Hnum. split; [by apply RulesTheory.evaluate_loop_spec|].
  intros r. split.
  - intros Habs. split; [by apply RulesTheory.check_absent|].
    unfold Rules.fires. by rewrite Habs.
  - intros x Hx. rewrite (RulesTheory.check_number r payload x Hx).
    unfold Rules.fires. rewrite Hx.
    split; intros Hh.
    + apply RulesTheory.holdsb_holds in Hh. by rewrite Hh.
    + destruct (Rules.holdsb r x) eqn:E; [|done].
      by apply RulesTheory.holdsb_holds in E.
Qed.

Lemma partial_payload_readable :
  Forall (Rules.readable partial_payload) Rules.RULES.
Proof.
  unfold Rules.RULES.
  apply Forall_cons_2; [|apply Forall_cons_2; [|apply Forall_cons_2]].
  - right. exists 10%Q. vm_compute. reflexivity.
  - right. exists 260%Q. vm_compute. reflexivity.
  - left. vm_compute. reflexivity.
  - apply Forall_nil_2.
Qed.

Lemma rule_evaluator_alerts_witness :
  Rules.evaluate partial_payload =
    (omap (Rules.fires partial_payload) Rules.RULES, None) /\
  forall r,
    (partial_payload !! Rules.field r = None ->
       Rules.check r partial_payload = Ok None /\
       Rules.fires partial_payload r = None) /\
    (forall x, partial_payload !! Rules.field r = Some (Rules.Num x) ->
       (Rules.holds r x ->
          Rules.check r partial_payload = Ok (Some (x, Rules.threshold r)) /\
          Rules.fires partial_payload r = Some (Rules.alert_of r x)) /\
       (~ Rules.holds r x ->
          Rules.check r partial_payload = Ok None /\
          Rules.fires partial_payload r = None)).
Proof.
  apply (rule_evaluator_alerts partial_payload).
  exact partial_payload_readable.
Defined.

(** C8: the history listing returns the rows of the device, with id below
    the cursor when one is given, in decreasing order of id, cut to the
    first [limit]; [has_more] is true exactly when more than [limit] rows
    match; with it, [next_before_id] is the smallest id returned.  With
    limit 25 against 30 stored decisions: 25 entries, [has_more] true,
    [next_before_id] the smallest id returned. *)
Theorem history_pagination (db : list History.RLDecisionLog)
    (device : string) (limit : nat) (before_id : option Z) :
  let rows := (History.list_rl_decisions db device limit before_id).1 in
  let more := (History.list_rl_decisions db device limit before_id).2 in
  let out := History.rl_history db device limit before_id in
  let stored := History.matching db device before_id in
  rows = take limit (History.order_by_id_desc stored) /\
  History.ids_descending rows /\
  (forall r, r ∈ rows ->
     r ∈ db /\ History.device_id r = device /\
     forall b, before_id = Some b -> (History.id r < b)%Z) /\
  (more = true <-> limit < length stored) /\
  length rows = Nat.min limit (length stored) /\
  History.item_id <$> History.decisions out = History.id <$> rows /\
  History.has_more out = more /\
  (more = false -> History.next_before_id out = None) /\
  (0 < limit -> more = true ->
     exists m, History.next_before_id out = Some m /\
               m ∈ (History.id <$> rows) /\
               forall r, r ∈ rows -> (m <= History.id r)%Z) /\
  (limit = 25 -> length stored = 30 ->
     length (History.decisions out) = 25 /\
     History.has_more out = true /\
     exists m, History.next_before_id out = Some m /\
               m ∈ (History.item_id <$> History.decisions out) /\
               forall i, i ∈ History.decisions out ->
                         (m <= History.item_id i)%Z).
Proof.
  cbv zeta. unfold History.rl_history.
  rewrite HistoryTheory.list_rl_decisions_spec. cbn [fst snd].
  fold (History.scoped db device before_id).
  set (stored := History.matching db device before_id).
  set (rows := take limit (History.scoped db device before_id)).
  assert (length rows = Nat.min limit (length stored)) as Hlen.
  { unfold rows. by rewrite length_take, HistoryTheory.scoped_length. }
  assert (0 < limit -> (limit <? length stored)%nat = true ->
          exists m, foldl History.min_id_step None rows = Some m /\
                    m ∈ (History.id <$> rows) /\
                    forall r, r ∈ rows -> (m <= History.id r)%Z) as Hmin.
  { intros Hpos Hmore%Nat.ltb_lt.
    pose proof (HistoryTheory.min_id_spec rows None) as Hspec.
    destruct (foldl History.min_id_step None rows) as [m|].
    - destruct Hspec as ([Hin|Hin] & _ & Hrows); [discriminate|]. eauto.
    - destruct Hspec as [_ Hnil]. rewrite Hnil in Hlen. simpl in Hlen. lia. }
  assert ((History.item_id <$>
             ((fun r => History.mkItem (History.id r) (History.safety_flags r)
                          (History.semantic_safe r) (History.semantic_raw r)
                          (History.semantic_delta_of r)) <$> rows))
          = History.id <$> rows) as Hids.
  { rewrite <- list_fmap_compose. reflexivity. }
  split; [reflexivity|].
  split; [apply HistoryTheory.scoped_descending|].
  split; [intros r; apply HistoryTheory.scoped_elem|].
  split; [apply Nat.ltb_lt|].
  split; [exact Hlen|].
  cbn [History.decisions History.has_more History.next_before_id].
  split; [exact Hids|].
  split; [reflexivity|].
  split; [by intros ->|].
  split.
  - intros Hpos Hmore. rewrite Hmore. by apply Hmin.
  - intros -> H30.
    assert ((25 <? length stored)%nat = true) as Hmore
      by (apply Nat.ltb_lt; lia).
    rewrite Hmore. split; [|split; [reflexivity|]].
    + rewrite length_fmap, Hlen, H30. reflexivity.
    + destruct (Hmin ltac:(lia) Hmore) as (m & Hm & Hin & Hle).
      exists m. split; [assumption|]. rewrite Hids. split; [assumption|].
      intros i (r & -> & Hr)%list_elem_of_fmap. cbn. by apply Hle.
Qed.

Lemma full_cache_NoDup : NoDup full_cache.
Proof.
  unfold full_cache. apply NoDup_fmap_2_strong; [|apply NoDup_seq].
  intros n m _ _ [= H]. by apply (inj pretty) in H.
Qed.

Lemma full_cache_length : Z.of_nat (length full_cache) = Dedup._DEDUP_MAX.
Proof.
  unfold full_cache. rewrite length_fmap, length_seq. reflexivity.
Qed.

Lemma full_cache_fresh : ("device-2", "t") ∉ full_cache.
Proof.
  unfold full_cache. intros (n & [= H] & _)%list_elem_of_fmap.
Qed.

(** C9: a cache that holds at most 5000 keys holds at most 5000 after
    [handle_ingested], which raises nothing; when it holds exactly 5000
    and the key is new, its 502 oldest keys (about a tenth) are deleted,
    in insertion order, before the key is inserted last, leaving 4499. *)
Theorem dedup_cache_bounded (d : list (string * string)) (device ts : string) :
  NoDup d ->
  (Z.of_nat (length d) <= Dedup._DEDUP_MAX)%Z ->
  exists d' accepted,
    Dedup.handle_ingested d device ts = Ok (d', accepted) /\
    NoDup d' /\
    (Z.of_nat (length d') <= Dedup._DEDUP_MAX)%Z /\
    (Z.of_nat (length d) = Dedup._DEDUP_MAX -> (device, ts) ∉ d ->
       d' = drop 502 d ++ [(device, ts)] /\
       accepted = true /\
       Z.of_nat (length d') = 4499%Z).
Proof.
  intros Hnd Hlen. unfold Dedup._DEDUP_MAX in *.
  rewrite (DedupTheory.handle_ingested_spec d device ts Hnd).
  unfold Dedup._DEDUP_MAX.
  destruct (bool_decide ((device, ts) ∈ d)) eqn:Hin.
  { apply bool_decide_eq_true in Hin.
    do 2 eexists. split; [reflexivity|]. split; [assumption|].
    split; [assumption|]. intros _ Hnot. by destruct Hnot. }
  apply bool_decide_eq_false in Hin.
  destruct (Z.leb_spec 5000 (Z.of_nat (length d))) as [Hfull|Hroom].
  - do 2 eexists. split; [reflexivity|].
    assert (length (drop 502 d ++ [(device, ts)]) = 4499) as Hafter.
    { rewrite length_app, length_drop. simpl. lia. }
    split; [|split; [lia|]].
    + apply NoDup_app. split; [|split].
      * apply (sublist_NoDup _ d Hnd), sublist_drop.
      * intros k Hk [->|H]%elem_of_cons; [|by apply elem_of_nil in H].
        apply Hin. by apply (subseteq_drop 502).
      * apply NoDup_singleton.
    + intros _ _. split; [reflexivity|]. split; [reflexivity|]. lia.
  - do 2 eexists. split; [reflexivity|].
    split; [|split].
    + apply NoDup_app. split; [assumption|]. split; [|apply NoDup_singleton].
      intros k Hk [->|H]%elem_of_cons; [done|by apply elem_of_nil in H].
    + rewrite length_app. simpl. lia.
    + intros Heq. lia.
Qed.

Lemma dedup_cache_bounded_witness :
  exists d' accepted,
    Dedup.handle_ingested full_cache "device-2" "t" = Ok (d', accepted) /\
    NoDup d' /\
    (Z.of_nat (length d') <= Dedup._DEDUP_MAX)%Z /\
    (Z.of_nat (length full_cache) = Dedup._DEDUP_MAX ->
     ("device-2", "t") ∉ full_cache ->
       d' = drop 502 full_cache ++ [("device-2", "t")] /\
       accepted = true /\
       Z.of_nat (length d') = 4499%Z).
Proof.
  apply (dedup_cache_bounded full_cache "device-2" "t").
  - exact full_cache_NoDup.
  - rewrite full_cache_length. reflexivity.
Defined.

(** Three decisions of one device and one of another, a page of two. *)
Example history_page_of_two :
  let row i dev := History.mkRow i dev None None None None in
  let db := [row 1%Z "a"; row 4%Z "b"; row 3%Z "a"; row 2%Z "a"] in
  let out := History.rl_history db "a" 2 None in
  History.item_id <$> History.decisions out = [3%Z; 2%Z] /\
  History.has_more out = true /\
  History.next_before_id out = Some 2%Z /\
  History.item_id <$> History.decisions (History.rl_history db "a" 2 (Some 2%Z))
    = [1%Z] /\
  History.has_more (History.rl_history db "a" 2 (Some 2%Z)) = false.
Proof. vm_compute. repeat split; reflexivity. Qed.

(** The scenario of the mapper: [0.5, 0.0, 0.3, 1.5, 2.0] gives 450 kW of
    EV charging and curtailment 1. *)
Example map_action_scenario :
  exists m,
    ActionMapping.returned
      (ActionMapping.map_action [0.5; 0; 0.3; 1.5; 2]%Q) = Ok m /\
    m !! "ev_kw" = Some 450%Q /\ m !! "curtailment" = Some 1%Q.
Proof. eexists. split; [vm_compute; reflexivity|]. split; reflexivity. Qed.

(** * Comparisons with [>=] *)

Lemma Qgeb_ge x y : Qgeb x y = true <-> (y <= x)%Q.
Proof. unfold Qgeb. apply Qle_bool_iff. Qed.

Lemma Qgeb_lt x y : Qgeb x y = false <-> (x < y)%Q.
Proof.
  unfold Qgeb. split.
  - intros H. apply Qnot_le_lt. intros Hle.
    apply Qle_bool_iff in Hle. congruence.
  - intros H. destruct (Qle_bool y x) eqn:E; [|reflexivity].
    apply Qle_bool_iff in E. lra.
Qed.

Ltac case_geb x y :=
  let E := fresh "E" in
  destruct (Qgeb x y) eqn:E;
  [apply Qgeb_ge in E | apply Qgeb_lt in E].

(** * Further properties of the supervisor *)

Module SafetyMore.
Import Safety.

Lemma battery_flags_quiet soc b :
  battery_flags soc b = [] <-> battery_out soc b = b.
Proof.
  unfold battery_flags, battery_out, BATTERY_MAX_CHARGE_TOTAL,
    BATTERY_MAX_DISCHARGE_TOTAL, SOC_020, SOC_090.
  cbv zeta. case_all_cmp; cbn [app];
    (split; intros H; try discriminate; try reflexivity;
     exfalso; rewrite <- H in *; lra).
Qed.

Lemma range_flags_quiet lo hi flo fhi x :
  (lo <= hi)%Q ->
  (range_flags lo hi flo fhi x = [] <-> range_out lo hi x = x).
Proof.
  intros Hle. unfold range_flags, range_out.
  cbv zeta. case_all_cmp; cbn [app];
    (split; intros H; try discriminate; try reflexivity;
     exfalso; try lra; rewrite <- H in *; lra).
Qed.

(** Each block of rules appends at most one flag. *)
Lemma battery_flags_cases soc b :
  battery_flags soc b ∈
    [ []; ["BLOCK_DISCHARGE_LOW_SOC"]; ["BLOCK_CHARGE_HIGH_SOC"];
      ["CLAMP_BATTERY_CHARGE"]; ["CLAMP_BATTERY_DISCHARGE"] ].
Proof.
  unfold battery_flags, BATTERY_MAX_CHARGE_TOTAL,
    BATTERY_MAX_DISCHARGE_TOTAL, SOC_020, SOC_090.
  cbv zeta. case_all_cmp; cbn [app];
    first [ exfalso; lra
          | rewrite !elem_of_cons; tauto ].
Qed.

Lemma range_flags_cases lo hi flo fhi x :
  (lo <= hi)%Q ->
  range_flags lo hi flo fhi x ∈ [ []; [flo]; [fhi] ].
Proof.
  intros Hle. unfold range_flags.
  cbv zeta. case_all_cmp; cbn [app];
    first [ exfalso; lra
          | rewrite !elem_of_cons; tauto ].
Qed.

Lemma safe_unchanged (semantic : gmap string Q) b g e c vb vg ve vc :
  semantic !! "battery_kw" = Some b ->
  semantic !! "grid_kw" = Some g ->
  semantic !! "ev_kw" = Some e ->
  semantic !! "curtailment" = Some c ->
  (<["curtailment" := vc]> (<["ev_kw" := ve]>
     (<["grid_kw" := vg]> (<["battery_kw" := vb]> semantic))) = semantic
   <-> vb = b /\ vg = g /\ ve = e /\ vc = c).
Proof.
  intros Hb Hg He Hc.
  destruct (SafetyTheory.lookup_safe semantic vb vg ve vc)
    as (Lb & Lg & Le & Lc).
  cbv zeta in Lb, Lg, Le, Lc. split.
  - intros Heq. rewrite Heq in Lb, Lg, Le, Lc.
    repeat split; congruence.
  - intros (-> & -> & -> & ->).
    rewrite (insert_id _ "battery_kw") by exact Hb.
    rewrite (insert_id _ "grid_kw") by exact Hg.
    rewrite (insert_id _ "ev_kw") by exact He.
    by rewrite (insert_id _ "curtailment") by exact Hc.
Qed.

(** The result of the supervisor with the two facts an audit relies on:
    untouched keys keep their value, and an empty flag list means an
    unchanged action. *)
Lemma apply_safety_audit (semantic : gmap string Q) soc :
  has_fields semantic ->
  exists safe flags,
    apply_safety semantic soc = Ok (safe, flags) /\
    has_fields safe /\
    (flags = [] -> safe = semantic) /\
    (forall k, k ∉ ["battery_kw"; "grid_kw"; "ev_kw"; "curtailment"] ->
               safe !! k = semantic !! k) /\
    (forall k, is_Some (safe !! k) <-> is_Some (semantic !! k)).
Proof.
  intros ([b Hb] & [g Hg] & [e He] & [c Hc]).
  do 2 eexists. split; [by apply SafetyTheory.apply_safety_spec|].
  destruct (SafetyTheory.lookup_safe semantic (battery_out soc b)
              (range_out 0 GRID_MAX_IMPORT g) (range_out 0 EV_MAX_CHARGE e)
              (range_out 0 1 c)) as (Lb & Lg & Le & Lc).
  cbv zeta in Lb, Lg, Le, Lc.
  split; [unfold has_fields; rewrite Lb, Lg, Le, Lc; eauto|].
  split; [|split].
  - intros Hflags.
    apply app_eq_nil in Hflags as [Fb Hflags].
    apply app_eq_nil in Hflags as [Fg Hflags].
    apply app_eq_nil in Hflags as [Fe Fc].
    apply (safe_unchanged semantic b g e c); try assumption.
    split; [by apply battery_flags_quiet|].
    split; [apply (range_flags_quiet 0 GRID_MAX_IMPORT) in Fg;
            [assumption|unfold GRID_MAX_IMPORT; lra]|].
    split; [apply (range_flags_quiet 0 EV_MAX_CHARGE) in Fe;
            [assumption|unfold EV_MAX_CHARGE; lra]|].
    apply (range_flags_quiet 0 1) in Fc; [assumption|lra].
  - intros k Hk. rewrite !elem_of_cons, elem_of_nil in Hk.
    rewrite !lookup_insert_ne by (intros <-; tauto). reflexivity.
  - intros k.
    destruct (decide (k = "curtailment")) as [->|N1]; [rewrite Lc, Hc; by split; eauto|].
    destruct (decide (k = "ev_kw")) as [->|N2]; [rewrite Le, He; by split; eauto|].
    destruct (decide (k = "grid_kw")) as [->|N3]; [rewrite Lg, Hg; by split; eauto|].
    destruct (decide (k = "battery_kw")) as [->|N4]; [rewrite Lb, Hb; by split; eauto|].
    by rewrite !lookup_insert_ne by done.
Qed.


End SafetyMore.

(** X1: the supervisor writes to the four supervised keys only: the safe
    action has the keys of the request, and every other key, such as
    battery1_kw and battery2_kw, keeps its value. *)
Theorem apply_safety_frame (semantic : gmap string Q) (soc : Q) :
  Safety.has_fields semantic ->
  exists safe flags,
    Safety.apply_safety semantic soc = Ok (safe, flags) /\
    dom safe = dom semantic /\
    forall k, k ∉ ["battery_kw"; "grid_kw"; "ev_kw"; "curtailment"] ->
              safe !! k = semantic !! k.
Proof.
  intros ([b Hb] & [g Hg] & [e He] & [c Hc]).
  do 2 eexists. split; [by apply SafetyTheory.apply_safety_spec|]. split.
  - rewrite !dom_insert_L.
    rewrite !(subseteq_union_1_L {[ _ ]});
      [reflexivity | rewrite ?dom_insert_L ..];
      apply singleton_subseteq_l; rewrite ?elem_of_union;
      repeat right; apply elem_of_dom; eauto.
  - intros k Hk. rewrite !elem_of_cons, elem_of_nil in Hk.
    rewrite !lookup_insert_ne by (intros <-; tauto). reflexivity.
Qed.

Lemma apply_safety_frame_witness :
  exists safe flags,
    Safety.apply_safety wild_action (1 # 10) = Ok (safe, flags) /\
    dom safe = dom wild_action /\
    forall k, k ∉ ["battery_kw"; "grid_kw"; "ev_kw"; "curtailment"] ->
              safe !! k = wild_action !! k.
Proof.
  apply (apply_safety_frame wild_action (1 # 10)).
  exact wild_action_has_fields.
Defined.

(** X2: every change is flagged and every flag is a change: the flag list
    is empty exactly when the safe action is the request itself. *)
Theorem apply_safety_flags_iff_changed (semantic : gmap string Q) (soc : Q) :
  Safety.has_fields semantic ->
  exists safe flags,
    Safety.apply_safety semantic soc = Ok (safe, flags) /\
    (flags = [] <-> safe = semantic).
Proof.
  intros ([b Hb] & [g Hg] & [e He] & [c Hc]).
  do 2 eexists. split; [by apply SafetyTheory.apply_safety_spec|].
  rewrite (SafetyMore.safe_unchanged semantic b g e c) by assumption.
  rewrite <- SafetyMore.battery_flags_quiet.
  rewrite <- (SafetyMore.range_flags_quiet 0 Safety.GRID_MAX_IMPORT
                "NO_EXPORT_SUPPORTED" "CLAMP_GRID_IMPORT")
    by (unfold Safety.GRID_MAX_IMPORT; lra).
  rewrite <- (SafetyMore.range_flags_quiet 0 Safety.EV_MAX_CHARGE
                "NEG_EV_POWER" "CLAMP_EV_CHARGE")
    by (unfold Safety.EV_MAX_CHARGE; lra).
  rewrite <- (SafetyMore.range_flags_quiet 0 1
                "CURTAILMENT_NEG" "CURTAILMENT_GT1") by lra.
  rewrite !app_nil. tauto.
Qed.

Lemma apply_safety_flags_iff_changed_witness :
  exists safe flags,
    Safety.apply_safety wild_action (1 # 10) = Ok (safe, flags) /\
    (flags = [] <-> safe = wild_action).
Proof.
  apply (apply_safety_flags_iff_changed wild_action (1 # 10)).
  exact wild_action_has_fields.
Defined.

(** X3: a decision carries at most one flag for each supervised quantity:
    at most four flags, none twice. *)
Theorem apply_safety_flags_distinct (semantic : gmap string Q) (soc : Q) :
  Safety.has_fields semantic ->
  exists safe flags,
    Safety.apply_safety semantic soc = Ok (safe, flags) /\
    NoDup flags /\ length flags <= 4.
Proof.
  intros ([b Hb] & [g Hg] & [e He] & [c Hc]).
  do 2 eexists. split; [by apply SafetyTheory.apply_safety_spec|].
  pose proof (SafetyMore.battery_flags_cases soc b) as Cb.
  assert (0 <= Safety.GRID_MAX_IMPORT)%Q as Lg
    by (unfold Safety.GRID_MAX_IMPORT; lra).
  assert (0 <= Safety.EV_MAX_CHARGE)%Q as Le
    by (unfold Safety.EV_MAX_CHARGE; lra).
  assert (0 <= 1)%Q as Lc by lra.
  pose proof (SafetyMore.range_flags_cases 0 Safety.GRID_MAX_IMPORT
                "NO_EXPORT_SUPPORTED" "CLAMP_GRID_IMPORT" g Lg) as Cg.
  pose proof (SafetyMore.range_flags_cases 0 Safety.EV_MAX_CHARGE
                "NEG_EV_POWER" "CLAMP_EV_CHARGE" e Le) as Ce.
  pose proof (SafetyMore.range_flags_cases 0 1
                "CURTAILMENT_NEG" "CURTAILMENT_GT1" c Lc) as Cc.
  clear Lg Le Lc.
  repeat (apply elem_of_cons in Cb as [-> | Cb]);
    [ .. | by apply elem_of_nil in Cb ];
  (repeat (apply elem_of_cons in Cg as [-> | Cg]);
     [ .. | by apply elem_of_nil in Cg ]);
  (repeat (apply elem_of_cons in Ce as [-> | Ce]);
     [ .. | by apply elem_of_nil in Ce ]);
  (repeat (apply elem_of_cons in Cc as [-> | Cc]);
     [ .. | by apply elem_of_nil in Cc ]);
  (split; [apply (bool_decide_unpack (NoDup _)); vm_compute; exact I
          | cbn; lia]).
Qed.

Lemma apply_safety_flags_distinct_witness :
  exists safe flags,
    Safety.apply_safety wild_action (1 # 10) = Ok (safe, flags) /\
    NoDup flags /\ length flags <= 4.
Proof.
  apply (apply_safety_flags_distinct wild_action (1 # 10)).
  exact wild_action_has_fields.
Defined.

(** * Further properties of the mapper and of the supervised advisory *)

Module MapperMore.
Import ActionMapping MapperValues.

Lemma right_pad_coords (v : list Q) :
  right_pad v =
  coord v 0 :: coord v 1 :: coord v 2 :: coord v 3 :: coord v 4 :: drop 5 v.
Proof.
  unfold right_pad, coord.
  destruct v as [|x0 [|x1 [|x2 [|x3 [|x4 rest]]]]]; try reflexivity.
  simpl. by rewrite app_nil_r.
Qed.

Lemma map_action_five_values x0 x1 x2 x3 x4 (rest : list Q) :
  map_action (x0 :: x1 :: x2 :: x3 :: x4 :: rest) =
  Call (x0 :: x1 :: x2 :: x3 :: x4 :: rest)
       (Ok (semantic_of (x0 :: x1 :: x2 :: x3 :: x4 :: rest))).
Proof.
  unfold map_action. cbv zeta.
  rewrite (proj1 (ActionMappingTheory.pad_loop_exits _)),
    ActionMappingTheory.right_pad_long by (simpl; lia).
  unfold getidx. cbn [lookup list_lookup]. rewrite !bind_Ok.
  reflexivity.
Qed.

Lemma coord_right_pad (v : list Q) i :
  i < 5 -> coord (right_pad v) i = coord v i.
Proof.
  intros Hi. rewrite right_pad_coords. unfold coord.
  destruct i as [|[|[|[|[|i]]]]]; try reflexivity. lia.
Qed.

Lemma semantic_of_right_pad (v : list Q) :
  semantic_of (right_pad v) = semantic_of v.
Proof.
  unfold semantic_of, battery1_of, battery2_of, grid_of, ev_of,
    curtailment_of.
  by rewrite !coord_right_pad by lia.
Qed.

(** What [map_action] returns on a non-empty vector, and what it leaves
    in the caller's list. *)
Lemma map_action_nonempty (v : list Q) :
  v <> [] -> map_action v = Call (right_pad v) (Ok (semantic_of v)).
Proof.
  intros Hne.
  rewrite (ActionMappingTheory.map_action_padded v (right_pad v));
    [| assumption | apply ActionMappingTheory.right_pad_nonempty
     | by rewrite ActionMappingTheory.right_pad_idem].
  rewrite <- (semantic_of_right_pad v).
  rewrite (right_pad_coords v) at 1 2 3.
  rewrite map_action_five_values. by rewrite <- right_pad_coords.
Qed.

Lemma semantic_of_lookup (v : list Q) :
  semantic_of v !! "battery_kw" = Some (battery1_of v + battery2_of v)%Q /\
  semantic_of v !! "battery1_kw" = Some (battery1_of v) /\
  semantic_of v !! "battery2_kw" = Some (battery2_of v) /\
  semantic_of v !! "grid_kw" = Some (grid_of v) /\
  semantic_of v !! "ev_kw" = Some (ev_of v) /\
  semantic_of v !! "curtailment" = Some (curtailment_of v).
Proof. unfold semantic_of. repeat split; by simplify_map_eq. Qed.

Lemma ev_of_range (v : list Q) : (0 <= ev_of v <= 450)%Q.
Proof.
  unfold ev_of, py_max, py_min, EV_MAX_AGG_CHARGE.
  case_all_cmp; lra.
Qed.

Lemma curtailment_of_range (v : list Q) : (0 <= curtailment_of v <= 1)%Q.
Proof.
  unfold curtailment_of, py_max, py_min.
  case_all_cmp; lra.
Qed.

Lemma coord_normalized (v : list Q) i :
  normalized v -> (-1 <= coord v i <= 1)%Q.
Proof.
  intros Hn. unfold coord.
  destruct (Nat.lt_ge_cases i (length v)) as [Hlt|Hge].
  - unfold normalized in Hn. rewrite Forall_forall in Hn.
    apply Hn. apply list_elem_of_In, nth_In, Hlt.
  - rewrite nth_overflow by assumption. lra.
Qed.

Lemma battery_of_range (v : list Q) :
  normalized v ->
  (-600 <= battery1_of v <= 600)%Q /\ (-200 <= battery2_of v <= 200)%Q.
Proof.
  intros Hn.
  pose proof (coord_normalized v 0 Hn). pose proof (coord_normalized v 1 Hn).
  unfold battery1_of, battery2_of, _battery_power_component,
    BAT1_MAX_CHARGE, BAT1_MAX_DISCHARGE, BAT2_MAX_CHARGE, BAT2_MAX_DISCHARGE.
  case_geb (coord v 0) 0%Q; case_geb (coord v 1) 0%Q; lra.
Qed.

Lemma grid_of_range (v : list Q) :
  normalized v -> (-3000 <= grid_of v <= 5000)%Q.
Proof.
  intros Hn. pose proof (coord_normalized v 2 Hn).
  unfold grid_of, GRID_MAX_IMPORT, GRID_MAX_EXPORT.
  case_geb (coord v 2) 0%Q; lra.
Qed.

(** A negative grid entry maps to a negative grid_kw: export. *)
Lemma grid_of_export (v : list Q) :
  (coord v 2 < 0)%Q -> (grid_of v == coord v 2 * 3000)%Q /\ (grid_of v < 0)%Q.
Proof.
  intros Hneg. unfold grid_of, GRID_MAX_IMPORT, GRID_MAX_EXPORT.
  case_geb (coord v 2) 0%Q; [lra|]. split; [ring | lra].
Qed.

End MapperMore.

Module AdvisoryMore.
Import Advisory MapperValues AdvisoryValues.

Lemma rl_advisory_safe_nonempty (v : list Q) soc :
  v <> [] ->
  rl_advisory_safe v soc =
  Ok (mkDecision v (Some (semantic_of v)) (Some (safe_of v soc))
        (flags_of v soc)).
Proof.
  intros Hne. unfold rl_advisory_safe.
  destruct v as [|x v]; [done|].
  rewrite (MapperMore.map_action_nonempty (x :: v) Hne).
  cbn [ActionMapping.returned]. rewrite !bind_Ok.
  destruct (MapperMore.semantic_of_lookup (x :: v))
    as (Lb & _ & _ & Lg & Le & Lc).
  rewrite SafetyTheory.truthy_has_fields
    by (unfold Safety.has_fields; rewrite Lb, Lg, Le, Lc; eauto).
  rewrite (SafetyTheory.apply_safety_spec _ soc _ _ _ _ Lb Lg Le Lc).
  reflexivity.
Qed.


(** On what the mapper produces, the EV and curtailment rules are quiet. *)
Lemma flags_of_mapper (v : list Q) soc :
  flags_of v soc =
  Safety.battery_flags soc (battery1_of v + battery2_of v)
    ++ Safety.range_flags 0 Safety.GRID_MAX_IMPORT
         "NO_EXPORT_SUPPORTED" "CLAMP_GRID_IMPORT" (grid_of v).
Proof.
  unfold flags_of.
  pose proof (MapperMore.ev_of_range v) as He.
  pose proof (MapperMore.curtailment_of_range v) as Hc.
  assert (Safety.range_flags 0 Safety.EV_MAX_CHARGE
            "NEG_EV_POWER" "CLAMP_EV_CHARGE" (ev_of v) = []) as ->.
  { unfold Safety.range_flags, Safety.EV_MAX_CHARGE. cbv zeta.
    case_all_cmp; cbn [app]; first [reflexivity | exfalso; lra]. }
  assert (Safety.range_flags 0 1
            "CURTAILMENT_NEG" "CURTAILMENT_GT1" (curtailment_of v) = []) as ->.
  { unfold Safety.range_flags. cbv zeta.
    case_all_cmp; cbn [app]; first [reflexivity | exfalso; lra]. }
  by rewrite !app_nil_r.
Qed.

Lemma flags_of_normalized (v : list Q) soc :
  normalized v ->
  forall f, f ∈ flags_of v soc ->
    f ∈ ["BLOCK_DISCHARGE_LOW_SOC"; "BLOCK_CHARGE_HIGH_SOC";
         "NO_EXPORT_SUPPORTED"].
Proof.
  intros Hn f. rewrite flags_of_mapper.
  destruct (MapperMore.battery_of_range v Hn) as [H1 H2].
  pose proof (MapperMore.grid_of_range v Hn) as Hg.
  unfold Safety.battery_flags, Safety.range_flags,
    Safety.BATTERY_MAX_CHARGE_TOTAL, Safety.BATTERY_MAX_DISCHARGE_TOTAL,
    Safety.GRID_MAX_IMPORT, Safety.SOC_020, Safety.SOC_090.
  cbv zeta. case_all_cmp; cbn [app];
    first [ exfalso; lra
          | rewrite ?elem_of_cons, ?elem_of_nil; tauto ].
Qed.


End AdvisoryMore.

(** X4: whatever the vector, the mapped action has ev_kw in [0, 450] and
    curtailment in [0, 1], and its battery_kw is the sum of battery1_kw
    and battery2_kw. *)
Theorem map_action_clamps_ev_and_curtailment (raw_vector : list Q) :
  exists m b b1 b2 e c,
    ActionMapping.returned (ActionMapping.map_action raw_vector) = Ok m /\
    m !! "battery_kw" = Some b /\ m !! "battery1_kw" = Some b1 /\
    m !! "battery2_kw" = Some b2 /\ m !! "ev_kw" = Some e /\
    m !! "curtailment" = Some c /\
    (b == b1 + b2)%Q /\ (0 <= e <= 450)%Q /\ (0 <= c <= 1)%Q.
Proof.
  destruct raw_vector as [|x v].
  - exists {[ "battery_kw" := 0%Q; "battery1_kw" := 0%Q;
              "battery2_kw" := 0%Q; "grid_kw" := 0%Q; "ev_kw" := 0%Q;
              "curtailment" := 0%Q ]}, 0%Q, 0%Q, 0%Q, 0%Q, 0%Q.
    split; [reflexivity|].
    do 5 (split; [by simplify_map_eq|]).
    split; [reflexivity|]. split; lra.
  - rewrite (MapperMore.map_action_nonempty (x :: v)) by done.
    destruct (MapperMore.semantic_of_lookup (x :: v))
      as (Lb & L1 & L2 & _ & Le & Lc).
    do 6 eexists. split; [reflexivity|].
    do 5 (split; [eassumption|]).
    split; [reflexivity|].
    split; [apply MapperMore.ev_of_range|apply MapperMore.curtailment_of_range].
Qed.

(** X5: a vector with every entry in [-1, 1] maps to battery1_kw in
    [-600, 600], battery2_kw in [-200, 200], battery_kw in [-800, 800]
    and grid_kw in [-3000, 5000]: of the supervisor's limits only the ban
    on export (negative grid_kw) can be exceeded. *)
Theorem map_action_normalized_ranges (raw_vector : list Q) :
  MapperValues.normalized raw_vector ->
  exists m b b1 b2 g,
    ActionMapping.returned (ActionMapping.map_action raw_vector) = Ok m /\
    m !! "battery_kw" = Some b /\ m !! "battery1_kw" = Some b1 /\
    m !! "battery2_kw" = Some b2 /\ m !! "grid_kw" = Some g /\
    (-800 <= b <= 800)%Q /\ (-600 <= b1 <= 600)%Q /\
    (-200 <= b2 <= 200)%Q /\ (-3000 <= g <= 5000)%Q.
Proof.
  intros Hn. destruct raw_vector as [|x v].
  - exists {[ "battery_kw" := 0%Q; "battery1_kw" := 0%Q;
              "battery2_kw" := 0%Q; "grid_kw" := 0%Q; "ev_kw" := 0%Q;
              "curtailment" := 0%Q ]}, 0%Q, 0%Q, 0%Q, 0%Q.
    split; [reflexivity|].
    do 4 (split; [by simplify_map_eq|]).
    repeat split; lra.
  - rewrite (MapperMore.map_action_nonempty (x :: v)) by done.
    destruct (MapperMore.semantic_of_lookup (x :: v))
      as (Lb & L1 & L2 & Lg & _ & _).
    destruct (MapperMore.battery_of_range (x :: v) Hn) as [H1 H2].
    pose proof (MapperMore.grid_of_range (x :: v) Hn) as Hg.
    do 5 eexists. split; [reflexivity|].
    do 4 (split; [eassumption|]).
    repeat split; lra.
Qed.

Lemma map_action_normalized_ranges_witness :
  exists m b b1 b2 g,
    ActionMapping.returned
      (ActionMapping.map_action [(1 # 2)%Q; (-1)%Q; (-3 # 10)%Q]) = Ok m /\
    m !! "battery_kw" = Some b /\ m !! "battery1_kw" = Some b1 /\
    m !! "battery2_kw" = Some b2 /\ m !! "grid_kw" = Some g /\
    (-800 <= b <= 800)%Q /\ (-600 <= b1 <= 600)%Q /\
    (-200 <= b2 <= 200)%Q /\ (-3000 <= g <= 5000)%Q.
Proof.
  apply (map_action_normalized_ranges [(1 # 2)%Q; (-1)%Q; (-3 # 10)%Q]).
  unfold MapperValues.normalized.
  repeat (apply Forall_cons_2; [split; lra|]). apply Forall_nil_2.
Defined.

(** X6: the supervised advisory never raises, and on what the mapper
    produces the EV and curtailment rules never fire: its flags are
    battery and grid flags only. *)
Theorem rl_advisory_safe_flags (raw_vec : list Q) (soc : Q) :
  exists d,
    Advisory.rl_advisory_safe raw_vec soc = Ok d /\
    forall f, f ∈ Advisory.flags d ->
      f ∈ ["BLOCK_DISCHARGE_LOW_SOC"; "BLOCK_CHARGE_HIGH_SOC";
           "CLAMP_BATTERY_CHARGE"; "CLAMP_BATTERY_DISCHARGE";
           "NO_EXPORT_SUPPORTED"; "CLAMP_GRID_IMPORT"].
Proof.
  destruct raw_vec as [|x v].
  - eexists. split; [reflexivity|]. cbn. by intros f ?%elem_of_nil.
  - rewrite AdvisoryMore.rl_advisory_safe_nonempty by done.
    eexists. split; [reflexivity|]. cbn [Advisory.flags].
    intros f. rewrite AdvisoryMore.flags_of_mapper, elem_of_app.
    intros [H|H].
    + apply SafetyTheory.battery_flags_sub in H.
      rewrite !elem_of_cons, elem_of_nil in *. tauto.
    + apply SafetyTheory.range_flags_sub in H.
      rewrite !elem_of_cons. tauto.
Qed.

(** X7: on a vector with every entry in [-1, 1] no clamp fires either:
    the only flags are the two state-of-charge blocks and
    NO_EXPORT_SUPPORTED. *)
Theorem rl_advisory_safe_normalized_flags (raw_vec : list Q) (soc : Q) :
  MapperValues.normalized raw_vec ->
  exists d,
    Advisory.rl_advisory_safe raw_vec soc = Ok d /\
    forall f, f ∈ Advisory.flags d ->
      f ∈ ["BLOCK_DISCHARGE_LOW_SOC"; "BLOCK_CHARGE_HIGH_SOC";
           "NO_EXPORT_SUPPORTED"].
Proof.
  intros Hn. destruct raw_vec as [|x v].
  - eexists. split; [reflexivity|]. cbn. by intros f ?%elem_of_nil.
  - rewrite AdvisoryMore.rl_advisory_safe_nonempty by done.
    eexists. split; [reflexivity|]. cbn [Advisory.flags].
    by apply AdvisoryMore.flags_of_normalized.
Qed.

Lemma rl_advisory_safe_normalized_flags_witness :
  exists d,
    Advisory.rl_advisory_safe [(1 # 2)%Q; (-1)%Q; (-3 # 10)%Q] (1 # 10)
      = Ok d /\
    forall f, f ∈ Advisory.flags d ->
      f ∈ ["BLOCK_DISCHARGE_LOW_SOC"; "BLOCK_CHARGE_HIGH_SOC";
           "NO_EXPORT_SUPPORTED"].
Proof.
  apply (rl_advisory_safe_normalized_flags
           [(1 # 2)%Q; (-1)%Q; (-3 # 10)%Q] (1 # 10)).
  unfold MapperValues.normalized.
  repeat (apply Forall_cons_2; [split; lra|]). apply Forall_nil_2.
Defined.



(** X9: a negative grid entry is an export request: the mapper turns it
    into a negative grid_kw (the entry times 3000), and the supervisor then
    zeroes it with NO_EXPORT_SUPPORTED; no advisory ever exports. *)
Theorem rl_advisory_safe_blocks_export (raw_vec : list Q) (soc : Q) :
  (MapperValues.coord raw_vec 2 < 0)%Q ->
  exists d raw safe g,
    Advisory.rl_advisory_safe raw_vec soc = Ok d /\
    Advisory.semantic_raw d = Some raw /\
    Advisory.semantic_safe d = Some safe /\
    raw !! "grid_kw" = Some g /\
    (g == MapperValues.coord raw_vec 2 * 3000)%Q /\ (g < 0)%Q /\
    safe !! "grid_kw" = Some 0%Q /\
    "NO_EXPORT_SUPPORTED" ∈ Advisory.flags d.
Proof.
  intros Hneg.
  assert (raw_vec <> []) as Hne
    by (intros ->; unfold MapperValues.coord in Hneg; simpl in Hneg; lra).
  rewrite AdvisoryMore.rl_advisory_safe_nonempty by assumption.
  destruct (MapperMore.grid_of_export raw_vec Hneg) as [Heq Hlt].
  destruct (MapperMore.semantic_of_lookup raw_vec)
    as (Lb & L1 & L2 & Lg & Le & Lc).
  do 4 eexists. split; [reflexivity|].
  cbn [Advisory.semantic_raw Advisory.semantic_safe Advisory.flags].
  split; [reflexivity|]. split; [reflexivity|].
  split; [exact Lg|]. split; [exact Heq|]. split; [exact Hlt|].
  split.
  - unfold AdvisoryValues.safe_of.
    rewrite !lookup_insert_ne, lookup_insert_eq by done.
    unfold Safety.range_out, Safety.GRID_MAX_IMPORT. cbv zeta.
    rewrite (proj2 (Qltb_lt _ _) Hlt). reflexivity.
  - rewrite AdvisoryMore.flags_of_mapper, elem_of_app. right.
    apply SafetyTheory.range_flags_lo;
      [done | unfold Safety.GRID_MAX_IMPORT; lra | assumption].
Qed.

Lemma rl_advisory_safe_blocks_export_witness :
  exists d raw safe g,
    Advisory.rl_advisory_safe [0%Q; 0%Q; (-1 # 2)%Q] (1 # 2) = Ok d /\
    Advisory.semantic_raw d = Some raw /\
    Advisory.semantic_safe d = Some safe /\
    raw !! "grid_kw" = Some g /\
    (g == MapperValues.coord [0%Q; 0%Q; (-1 # 2)%Q] 2 * 3000)%Q /\
    (g < 0)%Q /\
    safe !! "grid_kw" = Some 0%Q /\
    "NO_EXPORT_SUPPORTED" ∈ Advisory.flags d.
Proof.
  apply (rl_advisory_safe_blocks_export [0%Q; 0%Q; (-1 # 2)%Q] (1 # 2)).
  reflexivity.
Defined.

(** X10: a vector of five or more entries is left as the caller passed
    it, and only its first five entries count: the rest is ignored, not
    rejected. *)
Theorem map_action_ignores_extra_entries (raw_vector : list Q) :
  5 <= length raw_vector ->
  ActionMapping.arg_after (ActionMapping.map_action raw_vector) = raw_vector /\
  ActionMapping.returned (ActionMapping.map_action raw_vector) =
  ActionMapping.returned (ActionMapping.map_action (take 5 raw_vector)).
Proof.
  intros Hlen.
  assert (raw_vector <> []) as Hne by (intros ->; simpl in Hlen; lia).
  assert (take 5 raw_vector <> []) as Hne5.
  { intros H. apply (f_equal length) in H.
    rewrite length_take in H. cbn [length] in H. lia. }
  rewrite !MapperMore.map_action_nonempty by assumption.
  cbn [ActionMapping.arg_after ActionMapping.returned]. split.
  - by apply ActionMappingTheory.right_pad_long.
  - f_equal.
    unfold MapperValues.semantic_of, MapperValues.battery1_of,
      MapperValues.battery2_of, MapperValues.grid_of, MapperValues.ev_of,
      MapperValues.curtailment_of, MapperValues.coord.
    destruct raw_vector as [|x0 [|x1 [|x2 [|x3 [|x4 rest]]]]];
      simpl in Hlen; try lia.
    reflexivity.
Qed.

Lemma map_action_ignores_extra_entries_witness :
  ActionMapping.arg_after
    (ActionMapping.map_action [1; 0; 0; 0; 0; 7; 9]%Q) = [1; 0; 0; 0; 0; 7; 9]%Q /\
  ActionMapping.returned (ActionMapping.map_action [1; 0; 0; 0; 0; 7; 9]%Q) =
  ActionMapping.returned
    (ActionMapping.map_action (take 5 [1; 0; 0; 0; 0; 7; 9]%Q)).
Proof.
  apply (map_action_ignores_extra_entries [1; 0; 0; 0; 0; 7; 9]%Q).
  simpl. lia.
Defined.

(** * Further properties of the decision history *)

Module HistoryMore.
Import History.

#[local] Existing Instance HistoryTheory.id_desc_total.
#[local] Existing Instance HistoryTheory.id_desc_trans.

Lemma filter_none {A} (P : A -> Prop) `{!forall x, Decision (P x)} (l : list A) :
  (forall x, x ∈ l -> ~ P x) -> filter P l = [].
Proof.
  induction l as [|x l IH]; intros Hl; [reflexivity|].
  rewrite filter_cons_False by (apply Hl; by left).
  apply IH. intros y Hy. apply Hl. by right.
Qed.

Lemma filter_all {A} (P : A -> Prop) `{!forall x, Decision (P x)} (l : list A) :
  (forall x, x ∈ l -> P x) -> filter P l = l.
Proof.
  induction l as [|x l IH]; intros Hl; [reflexivity|].
  rewrite filter_cons_True by (apply Hl; by left).
  f_equal. apply IH. intros y Hy. apply Hl. by right.
Qed.

(** The id is a key: two rows of the table with the same id are one. *)
Lemma id_key (db : list RLDecisionLog) x y :
  NoDup (id <$> db) -> x ∈ db -> y ∈ db -> id x = id y -> x = y.
Proof.
  induction db as [|r db IH]; intros Hnd Hx Hy Heq.
  - by apply elem_of_nil in Hx.
  - rewrite fmap_cons in Hnd. apply NoDup_cons in Hnd as [Hr Hnd].
    apply elem_of_cons in Hx as [->|Hx]; apply elem_of_cons in Hy as [->|Hy].
    + reflexivity.
    + exfalso. apply Hr. rewrite Heq. apply list_elem_of_fmap. eauto.
    + exfalso. apply Hr. rewrite <- Heq. apply list_elem_of_fmap. eauto.
    + by apply IH.
Qed.

Lemma scoped_elem_of db device before_id r :
  r ∈ scoped db device before_id <->
  r ∈ db /\ in_scope device before_id r = true.
Proof.
  unfold scoped, order_by_id_desc, matching.
  rewrite merge_sort_Permutation, list_elem_of_filter. tauto.
Qed.

Lemma scoped_ids_NoDup db device before_id :
  NoDup (id <$> db) -> NoDup (id <$> scoped db device before_id).
Proof.
  intros Hnd. apply NoDup_fmap_2_strong.
  - intros x y [Hx _]%scoped_elem_of [Hy _]%scoped_elem_of.
    by apply (id_key db).
  - unfold scoped, order_by_id_desc, matching.
    rewrite merge_sort_Permutation. apply NoDup_filter.
    by apply NoDup_fmap_1 in Hnd.
Qed.

Lemma scoped_sorted db device before_id :
  StronglySorted id_desc (scoped db device before_id).
Proof. apply StronglySorted_merge_sort; apply _. Qed.

(** The rows in scope below the smallest id of a page are the rows after
    the page. *)
Lemma scoped_after_page db device before_id limit (m : Z) :
  NoDup (id <$> db) ->
  m ∈ (id <$> take limit (scoped db device before_id)) ->
  (forall r, r ∈ take limit (scoped db device before_id) -> (m <= id r)%Z) ->
  scoped db device (Some m) = drop limit (scoped db device before_id).
Proof.
  intros Hnd Hm Hmin.
  set (S0 := scoped db device before_id) in *.
  apply list_elem_of_fmap in Hm as (rm & -> & Hrm).
  pose proof (scoped_sorted db device before_id) as Hsorted. fold S0 in Hsorted.
  pose proof (scoped_ids_NoDup db device before_id Hnd) as Hids. fold S0 in Hids.
  rewrite <- (take_drop limit S0) in Hsorted, Hids.
  rewrite fmap_app in Hids. apply NoDup_app in Hids as (_ & Hdisj & _).
  assert (filter (fun r => (id r < id rm)%Z) S0 = drop limit S0) as Hfilter.
  { rewrite <- (take_drop limit S0) at 1. rewrite filter_app.
    rewrite filter_none, filter_all; [reflexivity | |].
    - intros r Hr.
      pose proof (StronglySorted_app_1_elem_of _ _ _ rm r Hsorted Hrm Hr) as Hle.
      unfold id_desc in Hle.
      assert (id r <> id rm); [|lia].
      intros Heq. apply (Hdisj (id rm)).
      + apply list_elem_of_fmap. eauto.
      + rewrite <- Heq. apply list_elem_of_fmap. eauto.
    - intros r Hr. specialize (Hmin r Hr). lia. }
  assert (rm ∈ S0) as HrmS by (by apply (subseteq_take limit)).
  apply scoped_elem_of in HrmS as [Hrmdb Hrmsc].
  assert (matching db device (Some (id rm)) =
          filter (fun r => (id r < id rm)%Z) (matching db device before_id))
    as Hmatch.
  { unfold matching. rewrite list_filter_filter. apply list_filter_iff.
    intros r. unfold in_scope in *.
    rewrite !andb_true_iff, !bool_decide_eq_true, Z.ltb_lt.
    apply andb_true_iff in Hrmsc as [_ Hb].
    destruct before_id as [b|]; [apply Z.ltb_lt in Hb|];
      rewrite ?Z.ltb_lt; intuition lia. }
  apply (StronglySorted_unique_strong id_desc).
  - intros x1 x2 [Hx1 _]%scoped_elem_of Hx2 H1 H2.
    apply (subseteq_drop limit), scoped_elem_of in Hx2 as [Hx2 _].
    apply (id_key db); [assumption..|]. unfold id_desc in *. lia.
  - apply scoped_sorted.
  - by apply StronglySorted_app_1_r in Hsorted.
  - rewrite <- Hfilter. unfold scoped at 1, order_by_id_desc.
    rewrite merge_sort_Permutation, Hmatch.
    apply filter_Permutation. symmetry.
    unfold S0, scoped, order_by_id_desc. apply merge_sort_Permutation.
Qed.

End HistoryMore.

(** X11: pages follow one another without gap or repeat: when ids are
    unique and a listing answers with a next_before_id, the listing at
    that cursor returns the rows that come next, so that the two pages
    together are the first 2 * limit rows in scope, in decreasing id. *)
Theorem history_next_page_continues (db : list History.RLDecisionLog)
    (device : string) (limit : nat) (before_id : option Z) (m : Z) :
  NoDup (History.id <$> db) ->
  History.next_before_id (History.rl_history db device limit before_id)
    = Some m ->
  (History.list_rl_decisions db device limit before_id).1 ++
  (History.list_rl_decisions db device limit (Some m)).1 =
  take (limit + limit)
    (History.order_by_id_desc (History.matching db device before_id)).
Proof.
  intros Hnd Hnext. unfold History.rl_history in Hnext.
  rewrite !HistoryTheory.list_rl_decisions_spec in *. cbn [fst snd] in *.
  cbn [History.next_before_id] in Hnext.
  destruct (limit <? length (History.matching db device before_id))%nat
    eqn:Hmore; [|discriminate].
  apply Nat.ltb_lt in Hmore.
  rewrite <- HistoryTheory.scoped_length in Hmore.
  pose proof (HistoryTheory.min_id_spec
                (take limit (History.scoped db device before_id)) None) as Hspec.
  rewrite Hnext in Hspec. destruct Hspec as ([Hin|Hin] & _ & Hmin);
    [discriminate|].
  rewrite (HistoryMore.scoped_after_page db device before_id limit m)
    by assumption.
  fold (History.scoped db device before_id).
  rewrite <- (take_drop limit (History.scoped db device before_id)) at 3.
  rewrite take_app_add'; [reflexivity|]. rewrite length_take. lia.
Qed.

Lemma sample_decisions_ids : NoDup (History.id <$> sample_decisions).
Proof. apply (bool_decide_unpack (NoDup _)). vm_compute. exact I. Qed.

Lemma history_next_page_continues_witness :
  (History.list_rl_decisions sample_decisions "a" 2 None).1 ++
  (History.list_rl_decisions sample_decisions "a" 2 (Some 3%Z)).1 =
  take (2 + 2)
    (History.order_by_id_desc (History.matching sample_decisions "a" None)).
Proof.
  apply (history_next_page_continues sample_decisions "a" 2 None 3%Z).
  - exact sample_decisions_ids.
  - vm_compute. reflexivity.
Defined.

(** X12: an answer with has_more false is complete: its rows are all the
    rows of the device below the cursor, in decreasing id. *)
Theorem history_last_page_complete (db : list History.RLDecisionLog)
    (device : string) (limit : nat) (before_id : option Z) :
  (History.list_rl_decisions db device limit before_id).2 = false ->
  (History.list_rl_decisions db device limit before_id).1 =
    History.order_by_id_desc (History.matching db device before_id) /\
  forall r,
    r ∈ (History.list_rl_decisions db device limit before_id).1 <->
    r ∈ db /\ History.device_id r = device /\
    match before_id with
    | Some b => (History.id r < b)%Z
    | None => True
    end.
Proof.
  rewrite HistoryTheory.list_rl_decisions_spec. cbn [fst snd].
  intros Hmore%Nat.ltb_ge.
  rewrite <- HistoryTheory.scoped_length in Hmore.
  rewrite take_ge by assumption. split; [reflexivity|].
  intros r. rewrite HistoryMore.scoped_elem_of. unfold History.in_scope.
  rewrite andb_true_iff, bool_decide_eq_true.
  destruct before_id as [b|]; rewrite ?Z.ltb_lt; tauto.
Qed.

Lemma history_last_page_complete_witness :
  (History.list_rl_decisions sample_decisions "a" 2 (Some 3%Z)).1 =
    History.order_by_id_desc
      (History.matching sample_decisions "a" (Some 3%Z)) /\
  forall r,
    r ∈ (History.list_rl_decisions sample_decisions "a" 2 (Some 3%Z)).1 <->
    r ∈ sample_decisions /\ History.device_id r = "a" /\ (History.id r < 3)%Z.
Proof.
  apply (history_last_page_complete sample_decisions "a" 2 (Some 3%Z)).
  vm_compute. reflexivity.
Defined.

(** * Further properties of the rule evaluator *)

(** X13: a value that [float()] rejects ends the evaluation with the
    exception of [float()], which is ValueError for a string that is not
    a number and TypeError for [None], a list or a dictionary: the alerts
    of the rules declared before the offending rule are yielded, then the
    exception is raised, and the rules declared after it are not
    checked. *)
Theorem evaluate_stops_at_bad_value (payload : gmap string Rules.pyval)
    (before after : list Rules.Rule) (r : Rules.Rule)
    (raw : Rules.pyval) (e : exn) :
  Rules.RULES = before ++ r :: after ->
  Forall (Rules.readable payload) before ->
  payload !! Rules.field r = Some raw ->
  Rules.float raw = Raise e ->
  Rules.evaluate payload = (omap (Rules.fires payload) before, Some e) /\
  (raw = Rules.NotNumeric -> e = ValueError) /\
  (raw = Rules.NotConvertible -> e = TypeError).
Proof.
  intros Hrules Hbefore Hbad He. split.
  2: { split; intros ->; cbn in He; congruence. }
  unfold Rules.evaluate. rewrite Hrules.
  clear Hrules. induction Hbefore as [|r0 before Hr0 _ IH].
  - cbn [app Rules.evaluate_loop].
    by rewrite (RulesTheory.check_not_number r payload raw e Hbad He).
  - cbn [app Rules.evaluate_loop].
    change (omap (Rules.fires payload) (r0 :: before))
      with (match Rules.fires payload r0 with
            | Some y => y :: omap (Rules.fires payload) before
            | None => omap (Rules.fires payload) before
            end).
    unfold Rules.fires at 1.
    destruct Hr0 as [Habs | [x Hx]].
    + by rewrite (RulesTheory.check_absent r0 payload Habs), Habs.
    + rewrite (RulesTheory.check_number r0 payload x Hx), Hx.
      destruct (Rules.holdsb r0 x); [|assumption].
      by rewrite IH.
Qed.

Lemma evaluate_stops_at_bad_value_witness :
  Rules.evaluate
    {[ "soc" := Rules.Num 10; "voltage" := Rules.NotConvertible;
       "temperature" := Rules.Num 90 ]} =
    (omap (Rules.fires
             {[ "soc" := Rules.Num 10; "voltage" := Rules.NotConvertible;
                "temperature" := Rules.Num 90 ]})
          [Rules.mkRule "soc" "lt" 20 "WARN" "SOC_LOW"
             "State of Charge below 20%"],
     Some TypeError) /\
  Rules.evaluate
    {[ "soc" := Rules.NotNumeric; "voltage" := Rules.Num 300 ]} =
    ([], Some ValueError).
Proof.
  split.
  - refine (proj1 (evaluate_stops_at_bad_value
             {[ "soc" := Rules.Num 10; "voltage" := Rules.NotConvertible;
                "temperature" := Rules.Num 90 ]}
             [Rules.mkRule "soc" "lt" 20 "WARN" "SOC_LOW"
                "State of Charge below 20%"]
             [Rules.mkRule "temperature" "gt" 60 "HIGH" "TEMP_HIGH"
                "Temperature above 60C"]
             (Rules.mkRule "voltage" "gt" 250 "HIGH" "VOLTAGE_HIGH"
                "Voltage exceeds 250V")
             Rules.NotConvertible TypeError _ _ _ _)).
    + reflexivity.
    + apply Forall_cons_2; [|apply Forall_nil_2].
      right. exists 10%Q. vm_compute. reflexivity.
    + vm_compute. reflexivity.
    + reflexivity.
  - refine (proj1 (evaluate_stops_at_bad_value
             {[ "soc" := Rules.NotNumeric; "voltage" := Rules.Num 300 ]}
             []
             [Rules.mkRule "voltage" "gt" 250 "HIGH" "VOLTAGE_HIGH"
                "Voltage exceeds 250V";
              Rules.mkRule "temperature" "gt" 60 "HIGH" "TEMP_HIGH"
                "Temperature above 60C"]
             (Rules.mkRule "soc" "lt" 20 "WARN" "SOC_LOW"
                "State of Charge below 20%")
             Rules.NotNumeric ValueError _ _ _ _)).
    + reflexivity.
    + apply Forall_nil_2.
    + vm_compute. reflexivity.
    + reflexivity.
Defined.

(** X14: the comparisons are strict and the operator set is closed: a
    rule does not fire on a value equal to its threshold, and a rule whose
    operator is neither lt nor gt never fires. *)
Theorem check_quiet_cases (payload : gmap string Rules.pyval)
    (r : Rules.Rule) (x : Q) :
  payload !! Rules.field r = Some (Rules.Num x) ->
  (x == Rules.threshold r)%Q \/
    (Rules.op r <> "lt" /\ Rules.op r <> "gt") ->
  Rules.check r payload = Ok None.
Proof.
  intros Hx Hquiet. rewrite (RulesTheory.check_number r payload x Hx).
  destruct (Rules.holdsb r x) eqn:E; [|reflexivity].
  apply RulesTheory.holdsb_holds in E. unfold Rules.holds in E.
  exfalso. destruct Hquiet as [Heq | [Hlt Hgt]].
  - rewrite Heq in E. destruct E as [[_ E]|[_ E]]; lra.
  - tauto.
Qed.

Lemma check_quiet_cases_witness :
  Rules.check
    (Rules.mkRule "soc" "lt" 20 "WARN" "SOC_LOW" "State of Charge below 20%")
    {[ "soc" := Rules.Num 20 ]} = Ok None.
Proof.
  apply (check_quiet_cases {[ "soc" := Rules.Num 20 ]}
           (Rules.mkRule "soc" "lt" 20 "WARN" "SOC_LOW"
              "State of Charge below 20%") 20%Q).
  - vm_compute. reflexivity.
  - left. reflexivity.
Defined.

(** * Further properties of the deduplication cache *)

Module DedupMore.
Import Dedup.

(** One call: what it returns and the invariant it keeps. *)
Lemma handle_ingested_step (d : list (string * string)) device ts :
  NoDup d ->
  (Z.of_nat (length d) <= _DEDUP_MAX)%Z ->
  exists d' accepted,
    handle_ingested d device ts = Ok (d', accepted) /\
    NoDup d' /\ (Z.of_nat (length d') <= _DEDUP_MAX)%Z /\
    (accepted = true <-> (device, ts) ∉ d) /\
    (device, ts) ∈ d' /\
    (accepted = false -> d' = d).
Proof.
  intros Hnd Hlen. unfold _DEDUP_MAX in *.
  rewrite (DedupTheory.handle_ingested_spec d device ts Hnd).
  unfold _DEDUP_MAX.
  destruct (bool_decide ((device, ts) ∈ d)) eqn:Hin.
  { apply bool_decide_eq_true in Hin.
    do 2 eexists. split; [reflexivity|]. repeat split; try assumption.
    - discriminate.
    - intros Hnot. by destruct Hnot. }
  apply bool_decide_eq_false in Hin.
  assert (forall l : list (string * string),
            NoDup l -> (device, ts) ∉ l -> NoDup (l ++ [(device, ts)])) as Hsnoc.
  { intros l Hl Hnot. apply NoDup_app. split; [assumption|].
    split; [|apply NoDup_singleton].
    intros k Hk [->|H]%elem_of_cons; [done|by apply elem_of_nil in H]. }
  destruct (Z.leb_spec 5000 (Z.of_nat (length d))) as [Hfull|Hroom].
  - do 2 eexists. split; [reflexivity|].
    split; [|split; [|split; [|split]]].
    + apply Hsnoc.
      * apply (sublist_NoDup _ d Hnd), sublist_drop.
      * intros H. apply Hin. by apply (subseteq_drop 502).
    + rewrite length_app, length_drop. simpl. lia.
    + tauto.
    + apply elem_of_app. right. by left.
    + discriminate.
  - do 2 eexists. split; [reflexivity|].
    split; [|split; [|split; [|split]]].
    + by apply Hsnoc.
    + rewrite length_app. simpl. lia.
    + tauto.
    + apply elem_of_app. right. by left.
    + discriminate.
Qed.

Lemma ingest_all_invariant (msgs d : list (string * string)) :
  NoDup d ->
  (Z.of_nat (length d) <= _DEDUP_MAX)%Z ->
  exists d' outcomes,
    DedupRun.ingest_all msgs d = Ok (d', outcomes) /\
    NoDup d' /\ (Z.of_nat (length d') <= _DEDUP_MAX)%Z /\
    length outcomes = length msgs.
Proof.
  revert d. induction msgs as [|[device ts] msgs IH]; intros d Hnd Hlen.
  - exists d, []. by repeat split.
  - destruct (handle_ingested_step d device ts Hnd Hlen)
      as (d1 & acc & Heq & Hnd1 & Hlen1 & _).
    destruct (IH d1 Hnd1 Hlen1) as (d2 & outs & Heq2 & Hnd2 & Hlen2 & Hl).
    exists d2, (acc :: outs).
    cbn [DedupRun.ingest_all]. rewrite Heq, bind_Ok. cbn beta iota.
    rewrite Heq2, bind_Ok. cbn beta iota.
    repeat split; try assumption. cbn. by rewrite Hl.
Qed.

End DedupMore.

(** X15: a message is discarded exactly when its (device, timestamp) key
    is in the cache; after the call the key is in the cache either way, so
    a message repeated at once is discarded, and a discard leaves the
    cache as it was. *)
Theorem handle_ingested_discards_exactly_duplicates
    (d : list (string * string)) (device ts : string) :
  NoDup d ->
  (Z.of_nat (length d) <= Dedup._DEDUP_MAX)%Z ->
  exists d' accepted,
    Dedup.handle_ingested d device ts = Ok (d', accepted) /\
    (accepted = false <-> (device, ts) ∈ d) /\
    (accepted = false -> d' = d) /\
    (device, ts) ∈ d' /\
    Dedup.handle_ingested d' device ts = Ok (d', false).
Proof.
  intros Hnd Hlen.
  destruct (DedupMore.handle_ingested_step d device ts Hnd Hlen)
    as (d' & acc & Heq & Hnd' & Hlen' & Hacc & Hin & Hsame).
  exists d', acc. split; [assumption|].
  split; [|split; [assumption|split; [assumption|]]].
  - destruct acc.
    + split; [discriminate|]. intros H. by apply Hacc in H.
    + split; [|reflexivity]. intros _.
      destruct (decide ((device, ts) ∈ d)) as [|Hnot]; [assumption|].
      apply Hacc in Hnot. discriminate.
  - rewrite (DedupTheory.handle_ingested_spec d' device ts Hnd').
    by rewrite bool_decide_eq_true_2.
Qed.

Lemma handle_ingested_discards_exactly_duplicates_witness :
  exists d' accepted,
    Dedup.handle_ingested full_cache "device-2" "t" = Ok (d', accepted) /\
    (accepted = false <-> ("device-2", "t") ∈ full_cache) /\
    (accepted = false -> d' = full_cache) /\
    ("device-2", "t") ∈ d' /\
    Dedup.handle_ingested d' "device-2" "t" = Ok (d', false).
Proof.
  apply (handle_ingested_discards_exactly_duplicates full_cache "device-2" "t").
  - exact full_cache_NoDup.
  - rewrite full_cache_length. reflexivity.
Defined.

(** X16: from the empty cache, whatever the stream of messages, the cache
    code raises nothing, and the cache ends without a repeated key and
    with at most 5000 keys. *)
Theorem ingest_all_bounded (msgs : list (string * string)) :
  exists d outcomes,
    DedupRun.ingest_all msgs [] = Ok (d, outcomes) /\
    NoDup d /\ (Z.of_nat (length d) <= Dedup._DEDUP_MAX)%Z /\
    length outcomes = length msgs.
Proof.
  apply DedupMore.ingest_all_invariant; [apply NoDup_nil_2 | done].
Qed.

(** X17: eviction forgets: when a new key arrives at a full cache, each of
    the 502 oldest keys is gone afterwards, and the message of such a key,
    replayed, is accepted again. *)
Theorem evicted_key_is_accepted_again (d : list (string * string))
    (device ts : string) (old : string * string) :
  NoDup d ->
  Z.of_nat (length d) = Dedup._DEDUP_MAX ->
  (device, ts) ∉ d ->
  old ∈ take 502 d ->
  exists d',
    Dedup.handle_ingested d device ts = Ok (d', true) /\
    (old ∉ d') /\
    Dedup.handle_ingested d' old.1 old.2 = Ok (d' ++ [old], true).
Proof.
  intros Hnd Hlen Hfresh Hold. unfold Dedup._DEDUP_MAX in Hlen.
  rewrite (DedupTheory.handle_ingested_spec d device ts Hnd).
  rewrite bool_decide_eq_false_2 by assumption.
  unfold Dedup._DEDUP_MAX.
  destruct (Z.leb_spec 5000 (Z.of_nat (length d))) as [_|]; [|lia].
  eexists. split; [reflexivity|].
  assert (old ∉ drop 502 d ++ [(device, ts)]) as Hgone.
  { rewrite <- (take_drop 502 d) in Hnd.
    apply NoDup_app in Hnd as (_ & Hdisj & _).
    intros [H|H]%elem_of_app.
    - by apply (Hdisj old).
    - apply list_elem_of_singleton in H. subst old.
      apply Hfresh. by apply (subseteq_take 502). }
  split; [assumption|].
  assert (NoDup (drop 502 d ++ [(device, ts)])) as Hnd'.
  { apply NoDup_app. split; [|split; [|apply NoDup_singleton]].
    - rewrite <- (take_drop 502 d) in Hnd. by apply NoDup_app in Hnd as (_ & _ & ?).
    - intros k Hk [->|H]%elem_of_cons; [|by apply elem_of_nil in H].
      apply Hfresh. by apply (subseteq_drop 502). }
  rewrite (DedupTheory.handle_ingested_spec _ old.1 old.2 Hnd').
  destruct old as [odev ots]. cbn [fst snd].
  rewrite bool_decide_eq_false_2 by assumption.
  unfold Dedup._DEDUP_MAX.
  destruct (Z.leb_spec 5000
              (Z.of_nat (length (drop 502 d ++ [(device, ts)])))) as [H|_];
    [|reflexivity].
  rewrite length_app, length_drop in H. simpl in H. lia.
Qed.

Lemma full_cache_oldest : ("device-1", "0") ∈ take 502 full_cache.
Proof.
  apply elem_of_take. exists 0. split; [|lia].
  unfold full_cache. vm_compute. reflexivity.
Qed.

Lemma evicted_key_is_accepted_again_witness :
  exists d',
    Dedup.handle_ingested full_cache "device-2" "t" = Ok (d', true) /\
    (("device-1", "0") ∉ d') /\
    Dedup.handle_ingested d' "device-1" "0" =
      Ok (d' ++ [("device-1", "0")], true).
Proof.
  apply (evicted_key_is_accepted_again full_cache "device-2" "t"
           ("device-1", "0")).
  - exact full_cache_NoDup.
  - exact full_cache_length.
  - exact full_cache_fresh.
  - exact full_cache_oldest.
Defined.

(** * The e-mail cooldown *)

Module EmailerMore.
Import Emailer.

(** After a call that answered [True] at time [now], the key's last send
    is [now]. *)
Lemma should_send_true self now key :
  (_should_send self now key).2 = true ->
  (_should_send self now key).1 =
    mkSender (enabled self) (cooldown self) (<[key := now]> (_last_sent self)).
Proof.
  unfold _should_send. cbv zeta.
  destruct (Qgeb _ _); [reflexivity|discriminate].
Qed.

End EmailerMore.

(** X18: once an e-mail was let through for a key at time [now], a later
    request for that key is let through exactly when at least [cooldown]
    seconds have passed since [now]; and the requests of one key never
    change the answer for another key. *)
Theorem should_send_cooldown (self : Emailer.EmailAlertSender)
    (now later : Q) (key other : string) :
  (Emailer._should_send self now key).2 = true ->
  key <> other ->
  let self' := (Emailer._should_send self now key).1 in
  ((Emailer._should_send self' later key).2 = true <->
     (inject_Z (Emailer.cooldown self) <= later - now)%Q) /\
  ((later - now < inject_Z (Emailer.cooldown self))%Q ->
     Emailer._should_send self' later key = (self', false)) /\
  (Emailer._should_send self' later other).2 =
  (Emailer._should_send self later other).2.
Proof.
  intros Hsent Hne. cbv zeta.
  rewrite (EmailerMore.should_send_true self now key Hsent).
  unfold Emailer._should_send.
  cbn [Emailer._last_sent Emailer.cooldown Emailer.enabled].
  rewrite lookup_insert_eq, lookup_insert_ne by assumption.
  cbn [from_option]. unfold id. cbv zeta.
  destruct (Qgeb (later - now) (inject_Z (Emailer.cooldown self))) eqn:E;
    cbn [fst snd].
  - apply Qgeb_ge in E.
    repeat split;
      first [ done | intros; lra | intros; exfalso; lra
            | by destruct (Qgeb _ _) ].
  - apply Qgeb_lt in E.
    repeat split;
      first [ done | intros; lra | intros; exfalso; lra
            | by destruct (Qgeb _ _) ].
Qed.

Lemma should_send_cooldown_witness :
  let self := Emailer.mkSender true 300 ∅ in
  let self' := (Emailer._should_send self 1000 "SOC_LOW:WARN").1 in
  ((Emailer._should_send self' 1200 "SOC_LOW:WARN").2 = true <->
     (inject_Z (Emailer.cooldown self) <= 1200 - 1000)%Q) /\
  ((1200 - 1000 < inject_Z (Emailer.cooldown self))%Q ->
     Emailer._should_send self' 1200 "SOC_LOW:WARN" = (self', false)) /\
  (Emailer._should_send self' 1200 "TEMP_HIGH:HIGH").2 =
  (Emailer._should_send self 1200 "TEMP_HIGH:HIGH").2.
Proof.
  apply (should_send_cooldown (Emailer.mkSender true 300 ∅) 1000 1200
           "SOC_LOW:WARN" "TEMP_HIGH:HIGH").
  - vm_compute. reflexivity.
  - discriminate.
Defined.

(** X19: a delivery that fails still starts the cooldown: [send] answers
    [False], and a second [send] for the key within the cooldown is
    refused without a delivery attempt, whatever the mail server would do. *)
Theorem failed_send_consumes_cooldown (self : Emailer.EmailAlertSender)
    (now later : Q) (key : string) (delivered : bool) :
  Emailer.enabled self = true ->
  (Emailer._should_send self now key).2 = true ->
  (later - now < inject_Z (Emailer.cooldown self))%Q ->
  let self' := (Emailer.send self now key false).1 in
  (Emailer.send self now key false).2 = false /\
  Emailer._last_sent self' !! key = Some now /\
  Emailer.send self' later key delivered = (self', false).
Proof.
  intros Hen Hsent Hsoon. cbv zeta.
  assert (Emailer.send self now key false =
          ((Emailer._should_send self now key).1, false)) as Hfirst.
  { unfold Emailer.send. rewrite Hen. cbn [negb].
    destruct (Emailer._should_send self now key) as [s ok].
    cbn [snd] in Hsent. subst ok. reflexivity. }
  rewrite Hfirst. cbn [fst snd].
  rewrite (EmailerMore.should_send_true self now key Hsent).
  split; [reflexivity|].
  cbn [Emailer._last_sent]. split; [apply lookup_insert_eq|].
  unfold Emailer.send, Emailer._should_send.
  cbn [Emailer._last_sent Emailer.cooldown Emailer.enabled].
  rewrite Hen, lookup_insert_eq. cbn [negb from_option]. unfold id. cbv zeta.
  apply Qgeb_lt in Hsoon. rewrite Hsoon. reflexivity.
Qed.

Lemma failed_send_consumes_cooldown_witness :
  let self := Emailer.mkSender true 300 ∅ in
  let self' := (Emailer.send self 1000 "SOC_LOW:WARN" false).1 in
  (Emailer.send self 1000 "SOC_LOW:WARN" false).2 = false /\
  Emailer._last_sent self' !! "SOC_LOW:WARN" = Some 1000%Q /\
  Emailer.send self' 1200 "SOC_LOW:WARN" true = (self', false).
Proof.
  apply (failed_send_consumes_cooldown (Emailer.mkSender true 300 ∅)
           1000 1200 "SOC_LOW:WARN" true).
  - reflexivity.
  - vm_compute. reflexivity.
  - reflexivity.
Defined.

(** * The reconnect backoff *)

Module MqttMore.
Import Mqtt.





End MqttMore.



(** * The observation vector *)

(** X21: whatever the clock and the telemetry, the observation has the
    length that [get_observation_dim] announces, 90. *)
Theorem build_observation_length (sin : Q -> Q) (pi : Q)
    (now : RlObs.datetime) (latest : option RlObs.Telemetry) :
  length (RlObs.build_observation sin pi now latest)
    = RlObs.get_observation_dim /\
  RlObs.get_observation_dim = 90.
Proof.
  split; [|reflexivity].
  unfold RlObs.build_observation.
  destruct latest as [[[s|] [t|]]|]; reflexivity.
Qed.

(** X22: the two battery blocks of the observation are the same six
    values (the second battery mirrors the first), at positions 43..48 and
    49..54; the state of charge there is the telemetry's soc / 100, or
    0.5 when there is no telemetry or no soc. *)
Theorem build_observation_battery_blocks (sin : Q -> Q) (pi : Q)
    (now : RlObs.datetime) (latest : option RlObs.Telemetry) :
  let obs := RlObs.build_observation sin pi now latest in
  take 6 (drop 43 obs) = take 6 (drop 49 obs) /\
  obs !! 43 =
    Some (match latest with
          | Some row =>
              match RlObs.soc row with
              | Some s => (s / 100)%Q
              | None => 0.5%Q
              end
          | None => 0.5%Q
          end) /\
  obs !! 44 = Some 1%Q /\ obs !! 46 = Some 1%Q /\ obs !! 47 = Some 1%Q /\
  obs !! 48 = Some 0%Q.
Proof.
  cbv zeta. unfold RlObs.build_observation.
  destruct latest as [[[s|] [t|]]|]; repeat split; reflexivity.
Qed.

(** * Alerts and telemetry in the database *)

Module CrudMore.
Import Crud.

#[local] Instance ts_desc_total : Total ts_desc.
Proof. intros r1 r2. unfold ts_desc. lia. Qed.

#[local] Instance ts_desc_trans : Transitive ts_desc.
Proof. intros r1 r2 r3. unfold ts_desc. lia. Qed.

(** After the first matching row is replaced by a row of the same id, it
    is still the first matching row. *)
Lemma find_after_update (db : list Alert) alert_id i a a' :
  list_find (fun a => id a = alert_id) db = Some (i, a) ->
  id a' = alert_id ->
  list_find (fun a => id a = alert_id) (<[i := a']> db) = Some (i, a').
Proof.
  intros (Hi & Ha & Hbefore)%list_find_Some Hid.
  apply list_find_Some. split; [|split; [assumption|]].
  - apply list_lookup_insert_eq. by eapply lookup_lt_Some.
  - intros j y Hj Hlt.
    rewrite list_lookup_insert_ne in Hj by lia. by eapply Hbefore.
Qed.

Lemma sorted_head_max (l : list Telemetry) r :
  head (merge_sort ts_desc l) = Some r ->
  r ∈ l /\ forall r', r' ∈ l -> (t_ts r' <= t_ts r)%Z.
Proof.
  intros Hhead.
  pose proof (StronglySorted_merge_sort ts_desc l) as Hsorted.
  pose proof (merge_sort_Permutation ts_desc l) as Hperm.
  apply head_Some in Hhead as [rest Heq]. rewrite Heq in Hsorted, Hperm.
  split.
  - rewrite <- Hperm. by left.
  - intros r' Hr'. rewrite <- Hperm in Hr'.
    apply elem_of_cons in Hr' as [->|Hr']; [lia|].
    apply StronglySorted_inv in Hsorted as [_ Hall].
    rewrite Forall_forall in Hall. by apply Hall.
Qed.

End CrudMore.

(** X23: an alert is acknowledged once: a second acknowledgement, at any
    later time, changes nothing and returns the same row; the row
    returned always carries an acknowledgement time, and an id that is not
    in the table leaves the table as it was and returns nothing. *)
Theorem acknowledge_alert_once (db : list Crud.Alert) (alert_id : Z)
    (now later : Z) :
  let first_ack := Crud.acknowledge_alert db alert_id now in
  Crud.acknowledge_alert first_ack.1 alert_id later = first_ack /\
  length first_ack.1 = length db /\
  (forall a, first_ack.2 = Some a ->
     Crud.id a = alert_id /\ is_Some (Crud.ack_ts a)) /\
  (first_ack.2 = None <->
     forall a, a ∈ db -> Crud.id a <> alert_id) /\
  (first_ack.2 = None -> first_ack.1 = db).
Proof.
  cbv zeta.
  destruct (list_find (fun a => Crud.id a = alert_id) db)
    as [[i a]|] eqn:Hfind.
  - pose proof Hfind as (Hi & Ha & _)%list_find_Some.
    assert (~ forall a0, a0 ∈ db -> Crud.id a0 <> alert_id) as Hsome.
    { intros Hall. apply (Hall a); [|assumption].
      apply list_elem_of_lookup. eauto. }
    destruct (Crud.ack_ts a) as [t|] eqn:Hack.
    + assert (Crud.acknowledge_alert db alert_id now = (db, Some a)) as ->
        by (unfold Crud.acknowledge_alert; by rewrite Hfind, Hack).
      cbn [fst snd]. split.
      { unfold Crud.acknowledge_alert. by rewrite Hfind, Hack. }
      split; [reflexivity|]. split.
      { intros a0 [= <-]. rewrite Hack. eauto. }
      split; [split; [discriminate|tauto]|discriminate].
    + assert (Crud.acknowledge_alert db alert_id now =
              (<[i := Crud.with_ack a now]> db, Some (Crud.with_ack a now)))
        as -> by (unfold Crud.acknowledge_alert; by rewrite Hfind, Hack).
      cbn [fst snd]. split.
      { unfold Crud.acknowledge_alert.
        rewrite (CrudMore.find_after_update db alert_id i a
                   (Crud.with_ack a now) Hfind Ha).
        reflexivity. }
      split; [apply length_insert|]. split.
      { intros a0 [= <-]. cbn. eauto. }
      split; [split; [discriminate|tauto]|discriminate].
  - assert (Crud.acknowledge_alert db alert_id now = (db, None)) as ->
      by (unfold Crud.acknowledge_alert; by rewrite Hfind).
    cbn [fst snd]. split.
    { unfold Crud.acknowledge_alert. by rewrite Hfind. }
    split; [reflexivity|]. split; [discriminate|].
    split; [|reflexivity]. split; [|reflexivity].
    intros _ a Ha Hid.
    apply list_find_None in Hfind. rewrite Forall_forall in Hfind.
    by apply (Hfind a).
Qed.

(** X24: the latest telemetry of a device is a row of that device whose
    timestamp no other row of the device exceeds, and there is none
    exactly when the device has no row. *)
Theorem latest_telemetry_is_latest (db : list Crud.Telemetry)
    (device : string) :
  (Crud.latest_telemetry db device = None <->
     forall r, r ∈ db -> Crud.t_device_id r <> device) /\
  forall r, Crud.latest_telemetry db device = Some r ->
    r ∈ db /\ Crud.t_device_id r = device /\
    forall r', r' ∈ db -> Crud.t_device_id r' = device ->
               (Crud.t_ts r' <= Crud.t_ts r)%Z.
Proof.
  unfold Crud.latest_telemetry. split.
  - rewrite head_None. split.
    + intros Hnil r Hr Hdev.
      assert (r ∈ merge_sort Crud.ts_desc
                    (filter (fun r => Crud.t_device_id r = device) db)) as Hin.
      { rewrite merge_sort_Permutation. by apply list_elem_of_filter. }
      rewrite Hnil in Hin. by apply elem_of_nil in Hin.
    + intros Hnone.
      destruct (merge_sort Crud.ts_desc
                  (filter (fun r => Crud.t_device_id r = device) db))
        as [|r rest] eqn:Heq; [reflexivity|].
      assert (r ∈ filter (fun r => Crud.t_device_id r = device) db) as Hin.
      { rewrite <- (merge_sort_Permutation Crud.ts_desc), Heq. by left. }
      apply list_elem_of_filter in Hin as [Hdev Hin]. by destruct (Hnone r).
  - intros r Hhead.
    apply CrudMore.sorted_head_max in Hhead as [Hin Hmax].
    apply list_elem_of_filter in Hin as [Hdev Hin].
    split; [assumption|]. split; [assumption|].
    intros r' Hr' Hdev'. apply Hmax. by apply list_elem_of_filter.
Qed.

(** * Alerts and their recommendations *)

Module SmartAlertsMore.
Import Rules.

Lemma evaluate_loop_types rules (payload : gmap string pyval) a :
  a ∈ (evaluate_loop rules payload).1 -> a_type_ a ∈ (type <$> rules).
Proof.
  induction rules as [|r rules IH]; cbn [evaluate_loop].
  - intros H. by apply elem_of_nil in H.
  - rewrite fmap_cons.
    destruct (check r payload) as [[[value threshold]|]|e].
    + destruct (evaluate_loop rules payload) as [later ended].
      cbn [fst] in *. intros [->|Hin]%elem_of_cons.
      * by left.
      * right. by apply IH.
    + intros Hin. right. by apply IH.
    + intros H. by apply elem_of_nil in H.
Qed.

End SmartAlertsMore.

(** X25: every alert that the rule evaluator yields, on any payload and
    even when the evaluation ends in an exception, is of one of the three
    declared types, has a recommended action in [get_smart_alerts], and is
    not marked as risk-generated. *)
Theorem rule_alerts_have_recommendations (payload : gmap string Rules.pyval)
    (a : Rules.Alert) :
  a ∈ (Rules.evaluate payload).1 ->
  Rules.a_type_ a ∈ ["SOC_LOW"; "VOLTAGE_HIGH"; "TEMP_HIGH"] /\
  is_Some (SmartAlerts.enrich (Rules.a_type_ a)).1 /\
  (SmartAlerts.enrich (Rules.a_type_ a)).2 = false.
Proof.
  intros Hin%SmartAlertsMore.evaluate_loop_types.
  split; [exact Hin|].
  cbn in Hin. rewrite !elem_of_cons, elem_of_nil in Hin.
  destruct Hin as [-> | [-> | [-> | []]]];
    (split; [eexists; vm_compute; reflexivity | reflexivity]).
Qed.

Lemma rule_alerts_have_recommendations_witness :
  Rules.a_type_ (Rules.mkAlert "SOC_LOW" "WARN" "State of Charge below 20%" 10 20)
    ∈ ["SOC_LOW"; "VOLTAGE_HIGH"; "TEMP_HIGH"] /\
  is_Some (SmartAlerts.enrich
             (Rules.a_type_
                (Rules.mkAlert "SOC_LOW" "WARN" "State of Charge below 20%"
                   10 20))).1 /\
  (SmartAlerts.enrich
     (Rules.a_type_
        (Rules.mkAlert "SOC_LOW" "WARN" "State of Charge below 20%" 10 20))).2
    = false.
Proof.
  apply (rule_alerts_have_recommendations partial_payload).
  vm_compute. by left.
Defined.

(** * Messages from the broker *)

Module MqttMessageMore.
Import MqttMessage.

Lemma split_nonempty sep s : split sep s <> [].
Proof.
  destruct s as [|c s]; cbn [split]; [done|].
  destruct (Ascii.eqb c sep); [done|]. by destruct (split sep s).
Qed.

(** Splitting at the first separator. *)
Lemma split_first (a b : string) :
  no_slash a = true ->
  split "/" (a +:+ String "/" b) = a :: split "/" b.
Proof.
  induction a as [|c a IH]; intros Hno.
  - reflexivity.
  - cbn [no_slash] in Hno. apply andb_true_iff in Hno as [Hc Hno].
    apply negb_true_iff in Hc.
    change (split "/" (String c a +:+ String "/" b))
      with (split "/" (String c (a +:+ String "/" b))).
    cbn [split]. rewrite Hc, (IH Hno). reflexivity.
Qed.

Lemma split_no_slash (a : string) :
  no_slash a = true -> split "/" a = [a].
Proof.
  induction a as [|c a IH]; intros Hno; [reflexivity|].
  cbn [no_slash] in Hno. apply andb_true_iff in Hno as [Hc Hno].
  apply negb_true_iff in Hc. cbn [split]. by rewrite Hc, (IH Hno).
Qed.

(** A topic with a slash has two parts or more. *)
Lemma split_slash (a : string) :
  no_slash a = false -> (2 <=? length (split "/" a))%nat = true.
Proof.
  induction a as [|c a IH]; intros Hno; [discriminate|].
  cbn [no_slash] in Hno. cbn [split].
  destruct (Ascii.eqb c "/") eqn:Hc.
  - pose proof (split_nonempty "/" a) as Hne.
    by destruct (split "/" a).
  - cbn in Hno. specialize (IH Hno).
    by destruct (split "/" a).
Qed.

Lemma prepare_no_slash topic data :
  no_slash topic = true -> prepare topic data = Ok data.
Proof. intros Hno. unfold prepare. by rewrite (split_no_slash topic Hno). Qed.

Lemma prepare_not_dict topic :
  no_slash topic = false -> prepare topic JNotDict = Raise AttributeError.
Proof. intros Hno. unfold prepare. by rewrite (split_slash topic Hno). Qed.

(** With two parts or more a dictionary gets the second part as its
    device_id, unless it has one. *)
Lemma prepare_dict topic d :
  no_slash topic = false ->
  exists p, split "/" topic !! 1 = Some p /\
    prepare topic (JDict d) = Ok (JDict (setdefault d "device_id" (JStr p))).
Proof.
  intros Hno. unfold prepare. pose proof (split_slash topic Hno) as Hlen.
  rewrite Hlen. destruct (split "/" topic) as [|p0 [|p ps]]; try discriminate.
  exists p. split; [reflexivity|]. unfold getidx. cbn. reflexivity.
Qed.

End MqttMessageMore.

(** X26: the ingestor counts every message once, as ok or as failed.  A
    payload that does not decode is counted as failed and not handed on.
    On a topic without a slash every decoded value, dictionary or not, is
    handed to the callback as it is.  On a topic with a slash a value
    that is not a dictionary is counted as failed and not handed on; a
    dictionary keeps the device_id it carries, and one without a
    device_id gets the second segment of the topic.  A message is counted
    as ok exactly when the callback was called and returned. *)
Theorem on_message_device_id (self : MqttMessage.counters)
    (on_telemetry : MqttMessage.json -> bool)
    (topic : string) (payload : option MqttMessage.json) :
  let result := MqttMessage._on_message self on_telemetry topic payload in
  (MqttMessage.messages_ok result.1 + MqttMessage.messages_failed result.1
     = MqttMessage.messages_ok self + MqttMessage.messages_failed self + 1) /\
  (payload = None -> result = (MqttMessage.count_failed self, None)) /\
  (forall data, payload = Some data -> MqttMessage.no_slash topic = true ->
     result.2 = Some data) /\
  (payload = Some MqttMessage.JNotDict ->
   MqttMessage.no_slash topic = false ->
   result = (MqttMessage.count_failed self, None)) /\
  (forall data, payload = Some (MqttMessage.JDict data) ->
     (is_Some (data !! "device_id") ->
      result.2 = Some (MqttMessage.JDict data)) /\
     (forall head device,
        topic = head +:+ String "/" device ->
        MqttMessage.no_slash head = true ->
        MqttMessage.no_slash device = true ->
        data !! "device_id" = None ->
        result.2 = Some (MqttMessage.JDict
                           (<["device_id" := MqttMessage.JStr device]> data))) /\
     (forall head device tail,
        topic = head +:+ String "/" (device +:+ String "/" tail) ->
        MqttMessage.no_slash head = true ->
        MqttMessage.no_slash device = true ->
        data !! "device_id" = None ->
        result.2 = Some (MqttMessage.JDict
                           (<["device_id" := MqttMessage.JStr device]> data)))) /\
  (forall handed, result.2 = Some handed ->
     result.1 = (if on_telemetry handed then MqttMessage.count_ok self
                 else MqttMessage.count_failed self)) /\
  (result.2 = None -> result.1 = MqttMessage.count_failed self).
Proof.
  cbv zeta.
  assert (forall handed,
            (if on_telemetry handed
             then (MqttMessage.count_ok self, Some handed)
             else (MqttMessage.count_failed self, Some handed)).2
            = Some handed) as Hsnd by (intros h; by destruct (on_telemetry h)).
  split; [|split; [|split; [|split; [|split; [|split]]]]].
  - unfold MqttMessage._on_message.
    destruct payload as [data|]; [|cbn; lia].
    destruct (MqttMessage.prepare topic data) as [handed|e]; [|cbn; lia].
    destruct (on_telemetry handed); cbn; lia.
  - by intros ->.
  - intros data -> Hno. unfold MqttMessage._on_message.
    rewrite (MqttMessageMore.prepare_no_slash topic data Hno). apply Hsnd.
  - intros -> Hno. unfold MqttMessage._on_message.
    by rewrite (MqttMessageMore.prepare_not_dict topic Hno).
  - intros data ->. unfold MqttMessage._on_message. split; [|split].
    + intros [v Hv].
      destruct (MqttMessage.no_slash topic) eqn:Hno.
      * rewrite (MqttMessageMore.prepare_no_slash topic _ Hno). apply Hsnd.
      * destruct (MqttMessageMore.prepare_dict topic data Hno)
          as (p & _ & ->).
        rewrite Hsnd. unfold MqttMessage.setdefault. by rewrite Hv.
    + intros head device -> Hhead Hdevice Hnone.
      unfold MqttMessage.prepare.
      rewrite (MqttMessageMore.split_first head _ Hhead).
      rewrite (MqttMessageMore.split_no_slash device Hdevice).
      cbn [length Nat.leb]. unfold getidx. cbn [lookup list_lookup].
      rewrite bind_Ok, Hsnd. unfold MqttMessage.setdefault.
      by rewrite Hnone.
    + intros head device tail -> Hhead Hdevice Hnone.
      unfold MqttMessage.prepare.
      rewrite (MqttMessageMore.split_first head _ Hhead).
      rewrite (MqttMessageMore.split_first device _ Hdevice).
      cbn [length Nat.leb]. unfold getidx. cbn [lookup list_lookup].
      rewrite bind_Ok, Hsnd. unfold MqttMessage.setdefault.
      by rewrite Hnone.
  - intros handed. unfold MqttMessage._on_message.
    destruct payload as [data|]; [|discriminate].
    destruct (MqttMessage.prepare topic data) as [h|e]; [|discriminate].
    destruct (on_telemetry h) eqn:Hh; cbn [fst snd]; intros [= <-];
      by rewrite Hh.
  - unfold MqttMessage._on_message.
    destruct payload as [data|]; [|reflexivity].
    destruct (MqttMessage.prepare topic data) as [h|e]; [|reflexivity].
    by destruct (on_telemetry h).
Qed.

(** * The store of the latest semantic action *)


(** * The audit delta *)

(** X28: the delta that the history shows for a supervised decision has
    an entry for every key of the raw action, and an entry other than
    zero can only stand at one of the four supervised keys, and only when
    the decision carries a flag. *)
Theorem semantic_delta_marks_clamps (row : History.RLDecisionLog)
    (raw safe : gmap string Q) (soc : Q) (flags : list string) :
  Safety.has_fields raw ->
  Safety.apply_safety raw soc = Ok (safe, flags) ->
  History.semantic_raw row = Some raw ->
  History.semantic_safe row = Some safe ->
  exists delta,
    History.semantic_delta_of row = Some delta /\
    (forall k, is_Some (delta !! k) <-> is_Some (raw !! k)) /\
    forall k v, delta !! k = Some v -> ~ (v == 0)%Q ->
      k ∈ ["battery_kw"; "grid_kw"; "ev_kw"; "curtailment"] /\ flags <> [].
Proof.
  intros Hf Happ Hraw Hsafe.
  destruct (SafetyMore.apply_safety_audit raw soc Hf)
    as (safe' & flags' & Heq & Hf' & Hquiet & Hframe & Hdom).
  rewrite Happ in Heq. injection Heq as <- <-.
  unfold History.semantic_delta_of. rewrite Hraw, Hsafe.
  rewrite !SafetyTheory.truthy_has_fields by assumption. cbn [andb].
  eexists. split; [reflexivity|]. split.
  - intros k. rewrite lookup_intersection_with.
    specialize (Hdom k).
    destruct (raw !! k) as [r|], (safe !! k) as [s|]; cbn;
      split; intros H; eauto; try (by destruct H);
      try (by apply Hdom in H; destruct H);
      try (by apply Hdom; eauto).
  - intros k v Hk Hv. rewrite lookup_intersection_with in Hk.
    destruct (raw !! k) as [r|] eqn:Hr, (safe !! k) as [s|] eqn:Hs;
      cbn in Hk; try discriminate.
    injection Hk as <-. split.
    + destruct (decide (k ∈ ["battery_kw"; "grid_kw"; "ev_kw"; "curtailment"]))
        as [|Hnot]; [assumption|].
      exfalso. apply Hv. rewrite (Hframe k Hnot), Hr in Hs.
      injection Hs as <-. ring.
    + intros Hnil. apply Hv. rewrite (Hquiet Hnil), Hr in Hs.
      injection Hs as <-. ring.
Qed.

Lemma semantic_delta_marks_clamps_witness :
  let row := History.mkRow 1 "a" None (Some wild_action)
               (Some wild_action_safe) (Some wild_action_flags) in
  exists delta,
    History.semantic_delta_of row = Some delta /\
    (forall k, is_Some (delta !! k) <-> is_Some (wild_action !! k)) /\
    forall k v, delta !! k = Some v -> ~ (v == 0)%Q ->
      k ∈ ["battery_kw"; "grid_kw"; "ev_kw"; "curtailment"] /\
      wild_action_flags <> [].
Proof.
  cbv zeta.
  apply (semantic_delta_marks_clamps
           (History.mkRow 1 "a" None (Some wild_action)
              (Some wild_action_safe) (Some wild_action_flags))
           wild_action wild_action_safe (1 # 10) wild_action_flags).
  - exact wild_action_has_fields.
  - vm_compute. reflexivity.
  - reflexivity.
  - reflexivity.
Defined.
